(** * The disaster-message scheduler of [function_app.py]

    A shallow embedding of [disaster_message_scheduler]: the sort of the
    fetched messages, the scan that selects the new ones against the stored
    id, and the run around them (blob load, API call, Event Hubs output,
    Teams notifications, blob save).

    Modelling conventions.
    - A message is the Python [dict] decoded from one JSON object of the
      API's ["body"] list: a finite map from field names to values.  Field
      values are the JSON scalars [None], [bool], [int] and [str]; JSON
      floats, arrays and objects as field values are outside the model.
    - A Python [str] is modelled by its UTF-8 bytes (Rocq's [string]).  Byte
      order on UTF-8 coincides with Python's code-point order, so [<] and
      [==] on strings are exact; [int()] and [str.strip()] are modelled on
      ASCII (digits and white space outside ASCII are not recognised).
    - Python integers are unbounded: [Z].  The interpreter's limit on the
      number of digits [int()] accepts is not modelled.
    - A raised exception is the [Raise] case of [result].
    - The blob store, the API, Event Hubs and Teams are modelled by what
      they answer in one run ([environment]); the run returns how it ended
      and the list of its effects on them.  [send_teams_webhook] catches
      every exception and is modelled by the notification alone. *)

From Stdlib Require Import ZArith String Ascii Decimal DecimalString DecimalZ DecimalPos.
From Stdlib Require OrderedTypeEx.
From stdpp Require Import base option list sorting gmap strings.

Local Open Scope Z_scope.
Local Open Scope string_scope.
Local Open Scope list_scope.

(** ** Exceptions *)

Inductive exn : Type :=
| ValueError
| TypeError.

Inductive result (A : Type) : Type :=
| Ok (a : A)
| Raise (e : exn).

Arguments Ok {A} a.
Arguments Raise {A} e.

Definition rbind {A B : Type} (r : result A) (k : A -> result B) : result B :=
  match r with
  | Ok a => k a
  | Raise e => Raise e
  end.

Notation "x <~ r ;; k" := (rbind r (fun x => k))
  (at level 100, r at next level, right associativity, only parsing).

(** ** Python values and messages *)

Inductive value : Type :=
| VNone
| VBool (b : bool)
| VInt (n : Z)
| VStr (s : string).

Abbreviation message := (gmap string value).

(** [d.get(k)]: [None] when the key is missing. *)
Definition dict_get (d : message) (k : string) : value :=
  default VNone (d !! k).

(** [d.get(k, dflt)]. *)
Definition dict_get_default (d : message) (k : string) (dflt : value) : value :=
  default dflt (d !! k).

(** ** [int()] and [str()] *)

(** White space skipped by [int()] on an ASCII string: tab, line feed,
    vertical tab, form feed, carriage return, space. *)
Definition Py_ISSPACE (c : ascii) : bool :=
  let n := N_of_ascii c in
  (((9 <=? n) && (n <=? 13)) || (n =? 32))%N.

(** White space removed by [str.strip()]: the above and the separators
    0x1c to 0x1f. *)
Definition Py_UNICODE_ISSPACE (c : ascii) : bool :=
  let n := N_of_ascii c in
  (((9 <=? n) && (n <=? 13)) || ((28 <=? n) && (n <=? 32)))%N.

(** Removal of leading and of trailing white space, for either notion of
    white space. *)
Fixpoint lstrip (space : ascii -> bool) (s : string) : string :=
  match s with
  | EmptyString => EmptyString
  | String c r => if space c then lstrip space r else s
  end.

Fixpoint rstrip (space : ascii -> bool) (s : string) : string :=
  match s with
  | EmptyString => EmptyString
  | String c r =>
      match rstrip space r with
      | EmptyString => if space c then EmptyString else String c EmptyString
      | r' => String c r'
      end
  end.

Definition strip (space : ascii -> bool) (s : string) : string :=
  lstrip space (rstrip space s).

(** [s.strip()] *)
Definition str_strip : string -> string := strip Py_UNICODE_ISSPACE.

Definition digit_of (c : ascii) : option Z :=
  let n := N_of_ascii c in
  if ((48 <=? n) && (n <=? 57))%N then Some (Z.of_N n - 48) else None.

(** The digits of a decimal literal as [int()] reads them: at least one
    digit, single underscores allowed between digits only. *)
Fixpoint int_digits (s : string) (acc : Z) (after_digit : bool) : option Z :=
  match s with
  | EmptyString => if after_digit then Some acc else None
  | String c r =>
      match digit_of c with
      | Some d => int_digits r (10 * acc + d) true
      | None =>
          if (Ascii.eqb c "_" && after_digit)%bool
          then int_digits r acc false
          else None
      end
  end.

(** An optional sign, then the digits. *)
Definition int_literal (t : string) : option Z :=
  match t with
  | EmptyString => None
  | String c d =>
      if Ascii.eqb c "+" then int_digits d 0 false
      else if Ascii.eqb c "-" then Z.opp <$> int_digits d 0 false
      else int_digits t 0 false
  end.

(** [int(s)] for a string [s]: surrounding white space is dropped, the rest
    is read as a signed decimal literal; anything else raises
    [ValueError]. *)
Definition int_of_str (s : string) : result Z :=
  match int_literal (strip Py_ISSPACE s) with
  | Some n => Ok n
  | None => Raise ValueError
  end.

(** [int(v)] *)
Definition py_int (v : value) : result Z :=
  match v with
  | VNone => Raise TypeError
  | VBool b => Ok (if b then 1 else 0)
  | VInt n => Ok n
  | VStr s => int_of_str s
  end.

(** [str(n)] for an integer [n] *)
Definition str_of_int (n : Z) : string :=
  NilZero.string_of_int (Z.to_int n).

(** [str(v)] *)
Definition py_str (v : value) : string :=
  match v with
  | VNone => "None"
  | VBool b => if b then "True" else "False"
  | VInt n => str_of_int n
  | VStr s => s
  end.

(** Truth value of a string: non-empty. *)
Definition str_truthy (s : string) : bool :=
  match s with
  | EmptyString => false
  | _ => true
  end.

(** ** Comparison of values and of sort keys *)

(** The number a [bool] or [int] stands for in a comparison. *)
Definition as_number (v : value) : option Z :=
  match v with
  | VBool b => Some (if b then 1 else 0)
  | VInt n => Some n
  | _ => None
  end.

(** [a == b]: never raises; values of different kinds are unequal, except
    that [True == 1] and [False == 0]. *)
Definition py_eq (a b : value) : bool :=
  match a, b with
  | VNone, VNone => true
  | VStr s, VStr t => String.eqb s t
  | _, _ =>
      match as_number a, as_number b with
      | Some x, Some y => (x =? y)%Z
      | _, _ => false
      end
  end.

(** [a < b]: numbers by value, strings lexicographically; any other pairing
    raises [TypeError]. *)
Definition py_lt (a b : value) : result bool :=
  match a, b with
  | VStr s, VStr t => Ok (String.ltb s t)
  | _, _ =>
      match as_number a, as_number b with
      | Some x, Some y => Ok (x <? y)%Z
      | _, _ => Raise TypeError
      end
  end.

(** [<] on pairs: the first components that differ decide. *)
Definition tuple_lt (a b : value * value) : result bool :=
  if py_eq a.1 b.1 then
    if py_eq a.2 b.2 then Ok false else py_lt a.2 b.2
  else py_lt a.1 b.1.

(** The sort key [lambda x: (x.get("CRT_DT", ""), x.get("SN", 0))]. *)
Definition sort_key (x : message) : value * value :=
  (dict_get_default x "CRT_DT" (VStr ""), dict_get_default x "SN" (VInt 0)).

(** ** [sorted(..., key=sort_key, reverse=True)]

    [sorted] is a stable comparison sort that only asks [<] of the keys,
    and [reverse=True] keeps the original order of messages with equal
    keys.  It is modelled by a stable insertion sort into descending order;
    a [TypeError] raised by a comparison propagates.  On the values of the
    model the outcome does not depend on the sorting algorithm: the sort
    raises exactly when two keys of the list cannot be compared with each
    other, and otherwise returns the one stable descending arrangement. *)

Fixpoint insert_desc (x : message) (l : list message) : result (list message) :=
  match l with
  | [] => Ok [x]
  | y :: l' =>
      lt <~ tuple_lt (sort_key x) (sort_key y) ;;
      if lt : bool then (r <~ insert_desc x l' ;; Ok (y :: r))
      else Ok (x :: l)
  end.

Fixpoint sorted_reverse (l : list message) : result (list message) :=
  match l with
  | [] => Ok []
  | x :: l' => r <~ sorted_reverse l' ;; insert_desc x r
  end.

(** ** The scan for new messages (lines 174 to 206) *)

(** The two variables the loop updates. *)
Record scan_state : Type := ScanState {
  new_messages_found : list message;
  current_most_recent_id : string
}.

(** How one iteration leaves the loop body. *)
Inductive flow : Type :=
| Next (st : scan_state)
| Break (st : scan_state).

(** [int(current_msg_id) if current_msg_id is not None else 0] *)
Definition current_msg_id_int (current_msg_id : value) : result Z :=
  match current_msg_id with
  | VNone => Ok 0
  | v => py_int v
  end.

(** [int(s) if s else 0], for the stored id and for the running maximum. *)
Definition id_str_int (s : string) : result Z :=
  if str_truthy s then int_of_str s else Ok 0.

(** The body of the [try]: both conversions, the message's id first. *)
Definition convert_ids (current_msg_id : value) (last_processed_msg_id : string)
  : result (Z * Z) :=
  cur <~ current_msg_id_int current_msg_id ;;
  last <~ id_str_int last_processed_msg_id ;;
  Ok (cur, last).

Definition scan_body (last_processed_msg_id : string) (st : scan_state)
    (msg : message) : result flow :=
  let current_msg_id := dict_get msg "SN" in
  match convert_ids current_msg_id last_processed_msg_id with
  | Raise ValueError => Ok (Next st)
  | Raise e => Raise e
  | Ok (cur, last) =>
      if cur >? last then
        most <~ id_str_int (current_most_recent_id st) ;;
        Ok (Next {| new_messages_found := new_messages_found st ++ [msg];
                    current_most_recent_id :=
                      if cur >? most then str_of_int cur
                      else current_most_recent_id st |})
      else Ok (Break st)
  end.

Fixpoint scan_loop (last_processed_msg_id : string) (msgs : list message)
    (st : scan_state) : result scan_state :=
  match msgs with
  | [] => Ok st
  | msg :: rest =>
      fl <~ scan_body last_processed_msg_id st msg ;;
      match fl with
      | Next st' => scan_loop last_processed_msg_id rest st'
      | Break st' => Ok st'
      end
  end.

(** Lines 174 to 206: the loop from its initial state. *)
Definition scan (last_processed_msg_id : string)
    (latest_messages_from_api : list message) : result scan_state :=
  scan_loop last_processed_msg_id latest_messages_from_api
    {| new_messages_found := [];
       current_most_recent_id := last_processed_msg_id |}.

(** Sort, then scan: what the scheduler computes from the stored id and the
    fetched list. *)
Definition engine (last_processed_msg_id : string) (messages_from_api : list message)
  : result scan_state :=
  latest <~ sorted_reverse messages_from_api ;;
  scan last_processed_msg_id latest.

(** ** One run of the scheduler *)

(** The Teams texts, without the exception detail some of them quote. *)
Inductive notification : Type :=
| MsgNoBlobConnection
| MsgBlobLoadFailed
| MsgNoApiKey
| MsgNoBodyWarning
| MsgRequestFailed
| MsgJsonParseFailed
| MsgUnexpectedError
| MsgEventHubFailed
| MsgNewDisaster (create_date dst_se_nm emrg_step_nm rcptn_rgn_nm msg_content msg_id : value)
| MsgInvalidIdWarning
| MsgBlobSaveFailed
| MsgNoNewMessages.

(** The effects recorded of a run, in the order they happen: the calls
    [send_teams_webhook(text)], [event.set(batch)] (each message of the
    batch serialised by [json.dumps]) and
    [blob_client.upload_blob(content, overwrite=True)].  Logging and the
    creation of a missing container are not recorded. *)
Inductive effect : Type :=
| Webhook (text : notification)
| EventSet (batch : list message)
| UploadBlob (content : string).

(** What lines 94 to 114 do: raise, with [blob_client] assigned before or
    not; find no blob; read the blob. *)
Inductive blob_load : Type :=
| LoadRaises (client_bound : bool)
| LoadAbsent
| LoadContent (raw : string).

(** The decoded answer of the API, as the test of line 139 sees it. *)
Inductive api_data : Type :=
| Body (messages_from_api : list message)
| NoBody.

(** What lines 134 to 136 do. *)
Inductive api_response : Type :=
| RequestException
| JSONDecodeError
| OtherException
| Json (data : api_data).

(** What the surroundings answer during one run.
    - [blob]: lines 94 to 114 raise (with [blob_client] already assigned or
      not), or find no blob, or read its decoded content.
    - [api]: the request or the status check raises a [RequestException],
      the decoding raises a [JSONDecodeError], something else raises in
      lines 128 to 146 before the comparisons of the sort (an answer that
      is no JSON object, an element of the list that is no object), or the
      answer is decoded: [Body l] is an object whose ["body"] is the list
      [l] of objects, [NoBody] an object for which the test of line 139 is
      false.  A [TypeError] of the sort itself is not part of the answer:
      [fetch_latest] computes it.
    - [event_set_raises], [upload_blob_raises]: whether the call raises. *)
Record environment : Type := Environment {
  BlobStorageConnectionString : option string;
  DisasterMsgApiKey : option string;
  blob : blob_load;
  api : api_response;
  event_set_raises : bool;
  upload_blob_raises : bool
}.

(** How the run ends: by one of its [return]s, at its last line, or by an
    exception no handler catches. *)
Inductive exit : Type :=
| Returned
| Completed
| Uncaught (e : exn).

(** [not os.environ.get(name)] *)
Definition env_missing (v : option string) : bool :=
  match v with
  | Some s => negb (str_truthy s)
  | None => true
  end.

(** Lines 84 to 123, past the connection-string test: the stored id, whether
    [blob_client] is bound afterwards, and the effects. *)
Definition load_last_processed (b : blob_load) : string * bool * list effect :=
  match b with
  | LoadRaises bound => ("", bound, [Webhook MsgBlobLoadFailed])
  | LoadAbsent => ("", true, [])
  | LoadContent raw => (str_strip raw, true, [])
  end.

(** Lines 232 to 246. *)
Definition teams_alert_message (msg : message) : notification :=
  MsgNewDisaster
    (dict_get_default msg "CRT_DT" (VStr "N/A"))
    (dict_get_default msg "DST_SE_NM" (VStr "없음"))
    (dict_get_default msg "EMRG_STEP_NM" (VStr "없음"))
    (dict_get_default msg "RCPTN_RGN_NM" (VStr "없음"))
    (dict_get_default msg "MSG_CN" (VStr "내용 없음"))
    (dict_get_default msg "SN" (VStr "N/A")).

(** Lines 231 to 248: one notification for each new message. *)
Definition alerts (new_messages_found : list message) : list effect :=
  map (fun msg => Webhook (teams_alert_message msg)) new_messages_found.

(** The test of lines 252 to 255. *)
Definition id_to_save_valid (most_recent_msg_id_to_save : value) : bool :=
  match most_recent_msg_id_to_save with
  | VNone => false
  | v => negb (py_eq v (VStr ""))
  end.

(** Lines 251 to 271. *)
Definition save_last_processed (env : environment) (client_bound : bool)
    (most_recent_msg_id_to_save : value) : list effect :=
  if id_to_save_valid most_recent_msg_id_to_save then
    if client_bound then
      UploadBlob (py_str most_recent_msg_id_to_save)
        :: (if upload_blob_raises env then [Webhook MsgBlobSaveFailed] else [])
    else [Webhook MsgBlobSaveFailed]
  else [Webhook MsgInvalidIdWarning].

(** Lines 209 to 275. *)
Definition deliver (env : environment) (client_bound : bool)
    (new_messages_found : list message) : list effect :=
  match new_messages_found with
  | [] => [Webhook MsgNoNewMessages]
  | first :: _ =>
      let most_recent_msg_id_to_save := dict_get first "SN" in
      EventSet new_messages_found
        :: (if event_set_raises env then [Webhook MsgEventHubFailed] else [])
        ++ alerts new_messages_found
        ++ save_last_processed env client_bound most_recent_msg_id_to_save
  end.

(** Lines 127 to 171, past the API-key test: the sorted list and the
    effects, or [None] where the scheduler returns. *)
Definition fetch_latest (r : api_response) : option (list message) * list effect :=
  match r with
  | RequestException => (None, [Webhook MsgRequestFailed])
  | JSONDecodeError => (None, [Webhook MsgJsonParseFailed])
  | OtherException => (None, [Webhook MsgUnexpectedError])
  | Json (Body messages_from_api) =>
      match sorted_reverse messages_from_api with
      | Ok latest => (Some latest, [])
      | Raise _ => (None, [Webhook MsgUnexpectedError])
      end
  | Json NoBody => (Some [], [Webhook MsgNoBodyWarning])
  end.

Definition disaster_message_scheduler (env : environment) : exit * list effect :=
  if env_missing (BlobStorageConnectionString env) then
    (Returned, [Webhook MsgNoBlobConnection])
  else
    let '(last_processed_msg_id, client_bound, t1) := load_last_processed (blob env) in
    if env_missing (DisasterMsgApiKey env) then
      (Returned, t1 ++ [Webhook MsgNoApiKey])
    else
      match fetch_latest (api env) with
      | (None, t2) => (Returned, t1 ++ t2)
      | (Some latest_messages_from_api, t2) =>
          match scan last_processed_msg_id latest_messages_from_api with
          | Raise e => (Uncaught e, t1 ++ t2)
          | Ok st =>
              (Completed,
               t1 ++ t2 ++ deliver env client_bound (new_messages_found st))
          end
      end.

(** The content of the blob after the run, given its content before: that
    of the upload, when there is one and it does not raise. *)
Definition blob_after (env : environment) (before : option string) : option string :=
  let uploads :=
    omap (fun e => match e with UploadBlob c => Some c | _ => None end)
         (disaster_message_scheduler env).2 in
  match uploads with
  | c :: _ => if upload_blob_raises env then before else Some c
  | [] => before
  end.

(** ** [send_teams_webhook] (lines 14 to 41) *)

(** The exceptions the two handlers of [send_teams_webhook] tell apart. *)
Inductive webhook_exn : Type :=
| WebhookRequestException
| WebhookOtherException.

(** What [requests.post] does: raise, or answer with a status code. *)
Inductive post_outcome : Type :=
| PostRaises (e : webhook_exn)
| PostStatus (status_code : Z).

(** [response.raise_for_status()] raises an [HTTPError], a
    [RequestException], for the status codes 400 to 599. *)
Definition raise_for_status (status_code : Z) : option webhook_exn :=
  if ((400 <=? status_code) && (status_code <? 600))%Z
  then Some WebhookRequestException
  else None.

(** The body of the [try] (lines 22 to 36): the requests posted, each with
    its URL and the text of its payload, and the exception that ends the
    body, if one does. *)
Definition webhook_try {T : Type} (AzureWebHookUrl : option string)
    (post : post_outcome) (message_text : T)
  : list (string * T) * option webhook_exn :=
  match AzureWebHookUrl with
  | None => ([], None)
  | Some webhook_url =>
      if str_truthy webhook_url then
        let webhook_payload := message_text in
        match post with
        | PostRaises e => ([(webhook_url, webhook_payload)], Some e)
        | PostStatus status_code =>
            ([(webhook_url, webhook_payload)], raise_for_status status_code)
        end
      else ([], None)
  end.

(** [send_teams_webhook(message_text)]: the requests posted and the
    exception that leaves the function, if one does.  Both handlers only
    log. *)
Definition send_teams_webhook {T : Type} (AzureWebHookUrl : option string)
    (post : post_outcome) (message_text : T)
  : list (string * T) * option webhook_exn :=
  match webhook_try AzureWebHookUrl post message_text with
  | (posts, Some WebhookRequestException) => (posts, None)
  | (posts, Some WebhookOtherException) => (posts, None)
  | (posts, None) => (posts, None)
  end.

(** * Notions used in the statements *)

(** Every character of [s] satisfies [f]. *)
Fixpoint string_forallb (f : ascii -> bool) (s : string) : bool :=
  match s with
  | EmptyString => true
  | String c r => f c && string_forallb f r
  end.

(** The value [int_digits] reaches on the digits [d] from accumulator [acc]. *)
Fixpoint uint_value (d : uint) (acc : Z) : Z :=
  match d with
  | Nil => acc
  | D0 d => uint_value d (10 * acc + 0)
  | D1 d => uint_value d (10 * acc + 1)
  | D2 d => uint_value d (10 * acc + 2)
  | D3 d => uint_value d (10 * acc + 3)
  | D4 d => uint_value d (10 * acc + 4)
  | D5 d => uint_value d (10 * acc + 5)
  | D6 d => uint_value d (10 * acc + 6)
  | D7 d => uint_value d (10 * acc + 7)
  | D8 d => uint_value d (10 * acc + 8)
  | D9 d => uint_value d (10 * acc + 9)
  end.

(** The integer the scan reads off a message, [None] where the conversion
    raises [ValueError] and the message is skipped. *)
Definition msg_id (msg : message) : option Z :=
  match current_msg_id_int (dict_get msg "SN") with
  | Ok n => Some n
  | Raise _ => None
  end.

(** The messages the loop appends when the stored id reads as [W]: it skips
    the ones without a readable id and stops at the first id not above [W]. *)
Fixpoint batch_of (W : Z) (msgs : list message) : list message :=
  match msgs with
  | [] => []
  | msg :: rest =>
      match msg_id msg with
      | None => batch_of W rest
      | Some cur => if cur >? W then msg :: batch_of W rest else []
      end
  end.

(** The largest id among [M] and the ids of [batch]. *)
Definition max_id (M : Z) (batch : list message) : Z :=
  foldl (fun acc msg => match msg_id msg with
                        | Some cur => Z.max acc cur
                        | None => acc
                        end) M batch.

(** [a] may stand before [b] in the sorted list: the sort's own comparison
    says that [a] is not less than [b]. *)
Definition key_ge (a b : message) : Prop :=
  tuple_lt (sort_key a) (sort_key b) = Ok false.

(** The keys of [a] and [b] are equal. *)
Definition same_key (a b : message) : bool :=
  py_eq (sort_key a).1 (sort_key b).1 && py_eq (sort_key a).2 (sort_key b).2.

(** The keys of [a] and [b] can be compared: [<] does not raise on them. *)
Definition comparable (a b : message) : Prop :=
  exists c, tuple_lt (sort_key a) (sort_key b) = Ok c.

(** [a] and [b] can be compared, are not equal, and [a] is the greater. *)
Definition value_gt (a b : value) : bool :=
  match a, b with
  | VStr s, VStr t => String.ltb t s
  | _, _ =>
      match as_number a, as_number b with
      | Some x, Some y => (y <? x)%Z
      | _, _ => false
      end
  end.

(** The pair the spec orders the records by: the [CRT_DT] string and the
    id the scan reads. *)
Definition created_at (msg : message) : string :=
  match dict_get_default msg "CRT_DT" (VStr "") with
  | VStr s => s
  | _ => ""
  end.

Definition sequence_id (msg : message) : Z := default 0 (msg_id msg).

Definition key_of (msg : message) : string * Z := (created_at msg, sequence_id msg).

(** Strings first, lexicographically; integers second, by value. *)
Definition key_ltb (a b : string * Z) : bool :=
  if String.eqb a.1 b.1 then (a.2 <? b.2)%Z else String.ltb a.1 b.1.

(** The message's [CRT_DT] is a string (or missing) and its [SN] an [int]
    (or missing). *)
Definition int_keyed (msg : message) : Prop :=
  exists c n, sort_key msg = (VStr c, VInt n).

(** [a] is not older than [b]: its pair is not below that of [b]. *)
Definition not_older (a b : message) : Prop :=
  key_ltb (key_of a) (key_of b) = false.

(** The insertion sort on such keys, without the exceptions. *)
Fixpoint insert_key (x : message) (l : list message) : list message :=
  match l with
  | [] => [x]
  | y :: l' =>
      if key_ltb (key_of x) (key_of y) then y :: insert_key x l' else x :: l
  end.

Fixpoint sort_keys (l : list message) : list message :=
  match l with
  | [] => []
  | x :: l' => insert_key x (sort_keys l')
  end.

(** Follows the spec's words: [a] is newer than [b] by the pair
    (created_at, sequence_id), the first compared as strings, the second as
    integers. *)
Definition newer (a b : message) : Prop :=
  key_ltb (key_of b) (key_of a) = true.

(** The effect is a Teams notification. *)
Definition is_webhook (e : effect) : Prop :=
  match e with
  | Webhook _ => True
  | _ => False
  end.

(** A notification other than the warning of line 265. *)
Definition stage_notice (e : effect) : Prop :=
  match e with
  | Webhook MsgInvalidIdWarning => False
  | Webhook _ => True
  | _ => False
  end.

(** C4 as stated, for one environment: the run returns from the API stage
    with one more notification. *)
Definition treated_as_fetch_failure (env : environment) : Prop :=
  exists text,
    disaster_message_scheduler env =
      (Returned, (load_last_processed (blob env)).2 ++ [Webhook text]).

(** Unfolds the comparisons of values and forgets that the number of a
    [bool] is 0 or 1. *)
Ltac value_cases :=
  cbv [value_gt py_eq py_lt as_number];
  repeat match goal with
         | |- context [if ?b then 1 else 0] =>
             generalize (if b then 1 else 0); intro
         end.

(** Closes a goal whose hypothesis [H] puts an effect in a list of effects
    of other kinds. *)
Ltac not_in_list H :=
  repeat (apply elem_of_cons in H as [[=]|H]); try (by apply elem_of_nil in H).

(** What the load of a run can answer when the blob holds [b]. *)
Definition reads (b : option string) (l : blob_load) : Prop :=
  match l with
  | LoadRaises _ => True
  | LoadAbsent => b = None
  | LoadContent raw => b = Some raw
  end.

(** The contents the blob can have when only the scheduler writes it,
    starting without a blob. *)
Inductive reachable : option string -> Prop :=
| reachable_init : reachable None
| reachable_run b env :
    reachable b -> reads b (blob env) -> reachable (blob_after env b).

(** The stored id, if it reads as an integer, is not negative. *)
Definition stored_nonneg (b : option string) : Prop :=
  forall raw W, b = Some raw -> id_str_int (str_strip raw) = Ok W -> 0 <= W.

(** * Concrete feeds and environments *)

(** A message with the two fields the scheduler reads. *)
Definition msg_of (crt_dt : string) (sn : value) : message :=
  {[ "CRT_DT" := VStr crt_dt; "SN" := sn ]}.

(** A message with an [SN] only. *)
Definition msg_sn (sn : value) : message := {[ "SN" := sn ]}.

(** An environment in which every collaborator answers. *)
Definition env_of (b : blob_load) (r : api_response) : environment :=
  {| BlobStorageConnectionString := Some "UseDevelopmentStorage=true";
     DisasterMsgApiKey := Some "service-key";
     blob := b;
     api := r;
     event_set_raises := false;
     upload_blob_raises := false |}.

Definition feed_late_5 : list message :=
  [msg_of "2024/05/01 09:00:00" (VInt 7); msg_of "2024/05/02 09:00:00" (VInt 5)].

Definition feed_str_ids : list message :=
  [msg_of "2024/05/01 09:00:00" (VStr "10"); msg_of "2024/05/01 09:00:00" (VStr "9")].

Definition msg_5 : message := msg_of "2024/05/01 09:00:00" (VInt 5).
Definition msg_str_9 : message := msg_of "2024/05/01 09:00:00" (VStr "9").
Definition msg_str_10 : message := msg_of "2024/05/01 09:00:00" (VStr "10").

Definition env_no_body : environment := env_of (LoadContent "100") (Json NoBody).

Definition feed_1 : list message :=
  [msg_sn (VInt 98); msg_sn (VInt 105); msg_sn (VInt 100); msg_sn (VInt 103)].

Definition sorted_feed_1 : list message :=
  [msg_sn (VInt 105); msg_sn (VInt 103); msg_sn (VInt 100); msg_sn (VInt 98)].

Definition new_1 : list message := [msg_sn (VInt 105); msg_sn (VInt 103)].

Definition old_1 : list message := [msg_sn (VInt 98)].

Definition env_timeout : environment := env_of (LoadRaises true) RequestException.

Definition msg_abc : message := msg_of "2024/05/03" (VStr "abc").

Definition env_sink_fails : environment :=
  {| BlobStorageConnectionString := Some "UseDevelopmentStorage=true";
     DisasterMsgApiKey := Some "service-key";
     blob := LoadContent "100";
     api := Json (Body feed_1);
     event_set_raises := true;
     upload_blob_raises := false |}.

Definition msg_without_sn : message := {[ "CRT_DT" := VStr "2024/05/02" ]}.

Definition env_negative : environment :=
  env_of (LoadContent "-5") (Json (Body [msg_without_sn])).

Definition env_sink_fails_negative : environment :=
  {| BlobStorageConnectionString := Some "UseDevelopmentStorage=true";
     DisasterMsgApiKey := Some "service-key";
     blob := LoadContent "-5";
     api := Json (Body [msg_without_sn]);
     event_set_raises := true;
     upload_blob_raises := false |}.

Definition env_feed_1 : environment := env_of (LoadContent "100") (Json (Body feed_1)).

Definition env_first_run : environment := env_of LoadAbsent (Json (Body [msg_sn (VInt 100)])).

(** * Notions used in the further properties *)

(** A notification of the stages before the delivery. *)
Definition early_notice (e : effect) : bool :=
  match e with
  | Webhook MsgNoBlobConnection | Webhook MsgBlobLoadFailed | Webhook MsgNoApiKey
  | Webhook MsgNoBodyWarning | Webhook MsgRequestFailed | Webhook MsgJsonParseFailed
  | Webhook MsgUnexpectedError => true
  | _ => false
  end.

(** The alert for a new message. *)
Definition is_alert (e : effect) : bool :=
  match e with
  | Webhook (MsgNewDisaster _ _ _ _ _ _) => true
  | _ => false
  end.

(** The environment [env] with another answer of the blob store. *)
Definition set_blob (env : environment) (b : blob_load) : environment :=
  {| BlobStorageConnectionString := BlobStorageConnectionString env;
     DisasterMsgApiKey := DisasterMsgApiKey env;
     blob := b;
     api := api env;
     event_set_raises := event_set_raises env;
     upload_blob_raises := upload_blob_raises env |}.

(** The longest prefix of [l] whose elements satisfy [f]. *)
Fixpoint take_while {A : Type} (f : A -> bool) (l : list A) : list A :=
  match l with
  | [] => []
  | x :: l' => if f x then x :: take_while f l' else []
  end.

(** The message does not end the scan against [W]: its id is above [W], or
    cannot be read. *)
Definition goes_on (W : Z) (msg : message) : bool :=
  match msg_id msg with
  | Some cur => cur >? W
  | None => true
  end.

(** The id of the message can be read. *)
Definition readable (msg : message) : bool :=
  match msg_id msg with
  | Some _ => true
  | None => false
  end.

(** Later dates go with larger ids: no message of [msgs] has both an
    earlier [CRT_DT] and a larger id than another. *)
Definition ids_follow_dates (msgs : list message) : Prop :=
  forall a b, a ∈ msgs -> b ∈ msgs ->
    String.ltb (created_at a) (created_at b) = true -> sequence_id a <= sequence_id b.

(** * Further concrete inputs *)

Definition feed_mixed : list message :=
  [msg_of "2024/05/01" (VStr "abc"); msg_of "2024/05/01" (VInt 105)].

Definition env_mixed : environment := env_of (LoadContent "100") (Json (Body feed_mixed)).

Definition env_second_run : environment := env_of (LoadContent "105") (Json (Body feed_1)).

Definition env_unreadable : environment := env_of (LoadContent "abc") (Json (Body feed_1)).

Definition env_load_fails : environment := env_of (LoadRaises true) (Json (Body feed_1)).

Definition env_no_connection : environment :=
  {| BlobStorageConnectionString := Some "";
     DisasterMsgApiKey := Some "service-key";
     blob := LoadContent "100";
     api := Json (Body feed_1);
     event_set_raises := false;
     upload_blob_raises := false |}.

Definition env_no_key : environment :=
  {| BlobStorageConnectionString := Some "UseDevelopmentStorage=true";
     DisasterMsgApiKey := None;
     blob := LoadRaises false;
     api := Json (Body feed_1);
     event_set_raises := false;
     upload_blob_raises := false |}.

Definition feed_dated : list message :=
  [msg_of "2024/05/01" (VInt 101); msg_of "2024/05/03" (VInt 105);
   msg_of "2024/05/02" (VInt 103)].

Definition env_dated : environment := env_of (LoadContent "100") (Json (Body feed_dated)).

Definition env_no_client : environment := env_of (LoadRaises false) (Json (Body feed_1)).

(** Closes [x ∈ l] for a list [l] that is written out. *)
Ltac in_list :=
  repeat (apply elem_of_cons; first [left; reflexivity | right]).

(** * Properties *)

(** ** The model at a few inputs *)

Example sorted_reverse_demo :
  sorted_reverse
    [ {[ "CRT_DT" := VStr "2024/01/01"; "SN" := VInt 3 ]};
      {[ "CRT_DT" := VStr "2024/01/02"; "SN" := VInt 5 ]} ]
  = Ok [ {[ "CRT_DT" := VStr "2024/01/02"; "SN" := VInt 5 ]};
         {[ "CRT_DT" := VStr "2024/01/01"; "SN" := VInt 3 ]} ].
Proof. vm_compute. reflexivity. Qed.

Example int_of_str_demo :
  int_of_str " 12 " = Ok 12 /\ int_of_str "+5" = Ok 5 /\ int_of_str "1_0" = Ok 10 /\
  int_of_str "_1" = Raise ValueError /\ int_of_str "1__0" = Raise ValueError /\
  int_of_str "" = Raise ValueError /\ int_of_str "-0" = Ok 0 /\ int_of_str "007" = Ok 7 /\
  int_of_str "- 5" = Raise ValueError /\ int_of_str "abc" = Raise ValueError /\
  str_of_int 105 = "105" /\ str_of_int (-7) = "-7" /\ str_of_int 0 = "0".
Proof. vm_compute. repeat split. Qed.

(** Scenario 1 of the spec: stored id 100, feed 105, 103, 100, 98. *)
Example scenario_1 :
  engine "100" [msg_sn (VInt 105); msg_sn (VInt 103); msg_sn (VInt 100); msg_sn (VInt 98)]
  = Ok {| new_messages_found := [msg_sn (VInt 105); msg_sn (VInt 103)];
          current_most_recent_id := "105" |}.
Proof. vm_compute. reflexivity. Qed.

(** Scenario 2: first run, feed 5, 3. *)
Example scenario_2 :
  engine "" [msg_sn (VInt 5); msg_sn (VInt 3)]
  = Ok {| new_messages_found := [msg_sn (VInt 5); msg_sn (VInt 3)];
          current_most_recent_id := "5" |}.
Proof. vm_compute. reflexivity. Qed.

(** Scenario 5: an id that is not a number above two new records.  (The
    ids are strings here: a string and an integer in one feed would make
    the sort raise.) *)
Example scenario_5 :
  engine "100"
    [msg_of "2024/05/03" (VStr "abc"); msg_of "2024/05/02" (VStr "105");
     msg_of "2024/05/01" (VStr "103")]
  = Ok {| new_messages_found :=
            [msg_of "2024/05/02" (VStr "105"); msg_of "2024/05/01" (VStr "103")];
          current_most_recent_id := "105" |}.
Proof. vm_compute. reflexivity. Qed.

(** A string id and an integer id under one [CRT_DT]: the sort raises. *)
Example sort_mixed_ids_raises :
  sorted_reverse [msg_of "2024/05/01" (VStr "abc"); msg_of "2024/05/01" (VInt 105)]
  = Raise TypeError.
Proof. vm_compute. reflexivity. Qed.

(** Scenario 3: an empty feed. *)
Example scenario_3 :
  disaster_message_scheduler (env_of (LoadContent "100") (Json (Body [])))
  = (Completed, [Webhook MsgNoNewMessages]).
Proof. vm_compute. reflexivity. Qed.

(** Scenario 4: the request times out. *)
Example scenario_4 :
  disaster_message_scheduler (env_of (LoadContent "100") RequestException)
  = (Returned, [Webhook MsgRequestFailed]).
Proof. vm_compute. reflexivity. Qed.

(** ** [int(str(n)) = n] *)

Lemma lstrip_id space s :
  string_forallb (fun c => negb (space c)) s = true -> lstrip space s = s.
Proof.
  destruct s as [|c r]; simpl; [done|].
  intros [Hc _]%andb_prop. destruct (space c); done.
Qed.

Lemma rstrip_id space s :
  string_forallb (fun c => negb (space c)) s = true -> rstrip space s = s.
Proof.
  induction s as [|c r IH]; simpl; [done|].
  intros [Hc Hr]%andb_prop. rewrite (IH Hr).
  destruct r; [|done]. destruct (space c); done.
Qed.

Lemma strip_id space s :
  string_forallb (fun c => negb (space c)) s = true -> strip space s = s.
Proof.
  intros H. unfold strip. rewrite (rstrip_id _ _ H). by apply lstrip_id.
Qed.

Lemma string_of_uint_no_space d :
  string_forallb (fun c => negb (Py_ISSPACE c)) (NilEmpty.string_of_uint d) = true.
Proof. induction d; simpl; auto. Qed.

Lemma int_digits_string_of_uint d acc b :
  d <> Nil \/ b = true ->
  int_digits (NilEmpty.string_of_uint d) acc b = Some (uint_value d acc).
Proof.
  revert acc b. induction d; intros acc b Hb;
    [destruct Hb as [?| ->]; done | simpl; apply IHd; by right ..].
Qed.

Lemma uint_value_pos d p : uint_value d (Z.pos p) = Z.pos (Pos.of_uint_acc d p).
Proof.
  revert p. induction d; intros p; simpl; [done | rewrite <- IHd; f_equal; lia ..].
Qed.

Lemma uint_value_zero d : uint_value d 0 = Z.of_N (Pos.of_uint d).
Proof.
  induction d; simpl; [done | done | apply uint_value_pos ..].
Qed.

Lemma int_digits_to_uint p b :
  int_digits (NilEmpty.string_of_uint (Pos.to_uint p)) 0 b = Some (Z.pos p).
Proof.
  rewrite int_digits_string_of_uint by (left; apply DecimalPos.Unsigned.to_uint_nonnil).
  by rewrite uint_value_zero, DecimalPos.Unsigned.of_to.
Qed.

Lemma string_of_to_uint p :
  NilZero.string_of_uint (Pos.to_uint p) = NilEmpty.string_of_uint (Pos.to_uint p).
Proof.
  pose proof (DecimalPos.Unsigned.to_uint_nonnil p) as H.
  destruct (Pos.to_uint p); done.
Qed.

Lemma int_literal_to_uint p :
  int_literal (NilEmpty.string_of_uint (Pos.to_uint p)) = Some (Z.pos p).
Proof.
  pose proof (int_digits_to_uint p false) as H.
  pose proof (DecimalPos.Unsigned.to_uint_nonnil p) as Hn.
  destruct (Pos.to_uint p); done.
Qed.

Lemma int_of_str_of_int n : int_of_str (str_of_int n) = Ok n.
Proof.
  unfold int_of_str, str_of_int.
  destruct n as [|p|p]; [done | |]; simpl; rewrite string_of_to_uint.
  - rewrite strip_id by apply string_of_uint_no_space.
    by rewrite int_literal_to_uint.
  - rewrite strip_id by (simpl; apply string_of_uint_no_space).
    simpl. by rewrite int_digits_to_uint.
Qed.

Lemma str_of_int_truthy n : str_truthy (str_of_int n) = true.
Proof.
  unfold str_of_int. destruct n as [|p|p]; [done | | done]. simpl.
  rewrite string_of_to_uint.
  pose proof (DecimalPos.Unsigned.to_uint_nonnil p) as Hn.
  destruct (Pos.to_uint p); done.
Qed.

Lemma id_str_int_of_int n : id_str_int (str_of_int n) = Ok n.
Proof. unfold id_str_int. by rewrite str_of_int_truthy, int_of_str_of_int. Qed.

(** ** What the scan computes *)

Lemma int_of_str_cases s :
  (exists n, int_of_str s = Ok n) \/ int_of_str s = Raise ValueError.
Proof.
  unfold int_of_str. destruct (int_literal _); eauto.
Qed.

Lemma current_msg_id_int_cases v :
  (exists n, current_msg_id_int v = Ok n) \/ current_msg_id_int v = Raise ValueError.
Proof.
  destruct v as [|[]|n|s]; simpl; eauto. apply int_of_str_cases.
Qed.

Lemma id_str_int_cases s :
  (exists n, id_str_int s = Ok n) \/ id_str_int s = Raise ValueError.
Proof.
  unfold id_str_int. destruct (str_truthy s); eauto. apply int_of_str_cases.
Qed.

Lemma msg_id_Some msg n :
  msg_id msg = Some n <-> current_msg_id_int (dict_get msg "SN") = Ok n.
Proof.
  unfold msg_id. destruct (current_msg_id_int _); split; congruence.
Qed.

Lemma msg_id_None msg :
  msg_id msg = None <-> current_msg_id_int (dict_get msg "SN") = Raise ValueError.
Proof.
  unfold msg_id.
  destruct (current_msg_id_int_cases (dict_get msg "SN")) as [[n ->]| ->];
    split; congruence.
Qed.

(** One iteration, by cases on the message's id, once the stored id reads
    as [W] and the running maximum as [M]. *)
Lemma scan_body_skip last st msg :
  msg_id msg = None -> scan_body last st msg = Ok (Next st).
Proof.
  intros H%msg_id_None. unfold scan_body, convert_ids. by rewrite H.
Qed.

Lemma scan_body_new last W st M msg cur :
  id_str_int last = Ok W ->
  id_str_int (current_most_recent_id st) = Ok M ->
  msg_id msg = Some cur -> cur > W ->
  exists st',
    scan_body last st msg = Ok (Next st') /\
    new_messages_found st' = new_messages_found st ++ [msg] /\
    id_str_int (current_most_recent_id st') = Ok (Z.max M cur).
Proof.
  intros HW HM Hid%msg_id_Some Hgt.
  unfold scan_body, convert_ids. rewrite Hid, HW. simpl.
  replace (cur >? W) with true by lia. rewrite HM. simpl.
  eexists. split; [done|]. split; [done|]. simpl.
  destruct (Z.gtb_spec cur M).
  - rewrite id_str_int_of_int. f_equal. lia.
  - rewrite HM. f_equal. lia.
Qed.

Lemma scan_body_old last W st msg cur :
  id_str_int last = Ok W ->
  msg_id msg = Some cur -> cur <= W ->
  scan_body last st msg = Ok (Break st).
Proof.
  intros HW Hid%msg_id_Some Hle.
  unfold scan_body, convert_ids. rewrite Hid, HW. simpl.
  by replace (cur >? W) with false by lia.
Qed.

(** The loop never raises when the stored id is readable; it appends
    [batch_of W msgs] and leaves the running maximum at the largest id it
    has appended. *)
Lemma scan_loop_spec last W msgs : forall st M,
  id_str_int last = Ok W ->
  id_str_int (current_most_recent_id st) = Ok M ->
  exists st',
    scan_loop last msgs st = Ok st' /\
    new_messages_found st' = new_messages_found st ++ batch_of W msgs /\
    id_str_int (current_most_recent_id st') = Ok (max_id M (batch_of W msgs)).
Proof.
  induction msgs as [|msg rest IH]; intros st M HW HM; simpl.
  - exists st. by rewrite app_nil_r.
  - destruct (msg_id msg) as [cur|] eqn:Hid.
    + destruct (Z.gtb_spec cur W) as [Hgt|Hle].
      * destruct (scan_body_new last W st M msg cur HW HM Hid) as (st1 & -> & Hb & Hm);
          [lia|]. simpl.
        destruct (IH st1 (Z.max M cur) HW Hm) as (st' & -> & Hb' & Hm').
        exists st'. split; [done|]. rewrite Hb', Hb, <- app_assoc. split; [done|].
        by rewrite Hid.
      * rewrite (scan_body_old last W st msg cur HW Hid Hle). simpl.
        exists st. by rewrite app_nil_r.
    + rewrite (scan_body_skip last st msg Hid). simpl. by apply IH.
Qed.

Lemma scan_spec last W msgs :
  id_str_int last = Ok W ->
  exists st,
    scan last msgs = Ok st /\
    new_messages_found st = batch_of W msgs /\
    id_str_int (current_most_recent_id st) = Ok (max_id W (batch_of W msgs)).
Proof.
  intros HW. by apply (scan_loop_spec last W msgs (ScanState [] last) W).
Qed.

(** With an unreadable stored id every iteration ends in the [except]
    branch: nothing is appended. *)
Lemma scan_loop_unreadable last msgs st :
  id_str_int last = Raise ValueError -> scan_loop last msgs st = Ok st.
Proof.
  intros HW. induction msgs as [|msg rest IH]; simpl; [done|].
  replace (scan_body last st msg) with (Ok (Next st)); [done|].
  unfold scan_body, convert_ids.
  destruct (current_msg_id_int_cases (dict_get msg "SN")) as [[n ->]| ->]; simpl;
    [by rewrite HW | done].
Qed.

(** The scan always returns. *)
Lemma scan_total last msgs : exists st, scan last msgs = Ok st.
Proof.
  destruct (id_str_int_cases last) as [[W HW]|HW].
  - destruct (scan_spec last W msgs HW) as (st & ? & _); eauto.
  - eexists. by apply scan_loop_unreadable.
Qed.

(** ** The sort *)

Lemma insert_desc_perm x l r : insert_desc x l = Ok r -> r ≡ₚ x :: l.
Proof.
  revert r. induction l as [|y l IH]; intros r; simpl.
  - by intros [= <-].
  - destruct (tuple_lt (sort_key x) (sort_key y)) as [[]|]; simpl; [|by intros [= <-]|done].
    destruct (insert_desc x l) as [r'|]; simpl; [|done].
    intros [= <-]. rewrite (IH r' eq_refl). apply perm_swap.
Qed.

Lemma sorted_reverse_perm l r : sorted_reverse l = Ok r -> r ≡ₚ l.
Proof.
  revert r. induction l as [|x l IH]; intros r; simpl.
  - by intros [= <-].
  - destruct (sorted_reverse l) as [r'|]; simpl; [|done].
    intros H%insert_desc_perm. by rewrite H, (IH r' eq_refl).
Qed.

(** A list already in descending order is left as it is. *)
Lemma sorted_reverse_fixed l : Sorted key_ge l -> sorted_reverse l = Ok l.
Proof.
  induction 1 as [|x l Hl IH Hx]; simpl; [done|].
  rewrite IH. simpl. destruct Hx as [|y l Hxy]; simpl; [done|].
  unfold key_ge in Hxy. by rewrite Hxy.
Qed.

(** *** Keys made of a string and an integer *)

Lemma str_ltb_lt a b : String.ltb a b = true <-> OrderedTypeEx.String_as_OT.lt a b.
Proof.
  rewrite <- OrderedTypeEx.String_as_OT.cmp_lt.
  unfold String.ltb, OrderedTypeEx.String_as_OT.cmp.
  destruct (String.compare a b); split; congruence.
Qed.

Lemma str_ltb_irrefl a : String.ltb a a = false.
Proof.
  unfold String.ltb.
  pose proof (proj2 (OrderedTypeEx.String_as_OT.cmp_eq a a) eq_refl) as H.
  unfold OrderedTypeEx.String_as_OT.cmp in H. by rewrite H.
Qed.

Lemma str_ltb_trans a b c :
  String.ltb a b = true -> String.ltb b c = true -> String.ltb a c = true.
Proof.
  rewrite !str_ltb_lt. apply OrderedTypeEx.String_as_OT.lt_trans.
Qed.

Lemma str_ltb_total a b :
  String.ltb a b = false -> String.ltb b a = false -> a = b.
Proof.
  unfold String.ltb. rewrite (String.compare_antisym b a).
  destruct (String.compare a b) eqn:E; simpl; try done.
  intros _ _. by apply OrderedTypeEx.String_as_OT.cmp_eq.
Qed.

Lemma str_ltb_asym a b : String.ltb a b = true -> String.ltb b a = false.
Proof.
  unfold String.ltb. rewrite (String.compare_antisym b a).
  by destruct (String.compare a b).
Qed.

Lemma key_ltb_asym a b : key_ltb a b = true -> key_ltb b a = false.
Proof.
  unfold key_ltb. rewrite (String.eqb_sym b.1 a.1).
  destruct (String.eqb_spec a.1 b.1); [lia | apply str_ltb_asym].
Qed.

Lemma key_ltb_ge_trans a b c :
  key_ltb a b = false -> key_ltb b c = false -> key_ltb a c = false.
Proof.
  unfold key_ltb. destruct a as [a1 a2], b as [b1 b2], c as [c1 c2]. simpl.
  destruct (String.eqb_spec a1 b1) as [->|Hab], (String.eqb_spec b1 c1) as [->|Hbc];
    rewrite ?String.eqb_refl; try done; try lia.
  - destruct (String.eqb_spec a1 c1) as [->|Hac]; [|done].
    intros H1 H2. destruct Hab. by apply str_ltb_total.
  - destruct (String.eqb_spec a1 c1) as [->|Hac].
    + intros H1 H2. destruct Hab. by apply str_ltb_total.
    + intros H1 H2.
      destruct (String.ltb a1 c1) eqn:H3; [|done].
      destruct (String.ltb c1 b1) eqn:H4.
      * by rewrite (str_ltb_trans _ _ _ H3 H4) in H1.
      * destruct Hbc. by apply str_ltb_total.
Qed.

Lemma key_ltb_ge_antisym a b :
  key_ltb a b = false -> key_ltb b a = false -> a = b.
Proof.
  unfold key_ltb. rewrite (String.eqb_sym b.1 a.1).
  destruct a as [a1 a2], b as [b1 b2]. simpl.
  destruct (String.eqb_spec a1 b1) as [->|Hne].
  - intros. f_equal. lia.
  - intros H1 H2. destruct Hne. by apply str_ltb_total.
Qed.

#[local] Instance not_older_trans : Transitive not_older.
Proof. intros a b c. apply key_ltb_ge_trans. Qed.

Lemma int_keyed_key_of msg c n :
  sort_key msg = (VStr c, VInt n) -> key_of msg = (c, n).
Proof.
  unfold sort_key, key_of, created_at, sequence_id, msg_id, dict_get_default, dict_get.
  intros [= Hc Hn]. rewrite Hc. f_equal.
  destruct (msg !! "SN") as [v|]; simpl in *; [by subst v | congruence].
Qed.

(** On such keys the comparison of the sort never raises and is the
    lexicographic one. *)
Lemma tuple_lt_int_keyed a b :
  int_keyed a -> int_keyed b ->
  tuple_lt (sort_key a) (sort_key b) = Ok (key_ltb (key_of a) (key_of b)).
Proof.
  intros (ca & na & Ha) (cb & nb & Hb).
  rewrite (int_keyed_key_of _ _ _ Ha), (int_keyed_key_of _ _ _ Hb), Ha, Hb.
  unfold tuple_lt, key_ltb. simpl.
  destruct (String.eqb ca cb); [|done].
  destruct (Z.eqb_spec na nb); [|done]. f_equal. lia.
Qed.

Lemma insert_desc_int_keyed x l :
  int_keyed x -> Forall int_keyed l -> insert_desc x l = Ok (insert_key x l).
Proof.
  intros Hx. induction 1 as [|y l Hy Hl IH]; simpl; [done|].
  rewrite (tuple_lt_int_keyed _ _ Hx Hy). simpl.
  destruct (key_ltb _ _); [|done]. by rewrite IH.
Qed.

Lemma sorted_reverse_int_keyed l :
  Forall int_keyed l -> sorted_reverse l = Ok (sort_keys l).
Proof.
  induction 1 as [|x l Hx Hl IH]; simpl; [done|].
  rewrite IH. simpl. apply insert_desc_int_keyed; [done|].
  apply sorted_reverse_perm in IH. by rewrite IH.
Qed.

Lemma insert_key_perm x l : insert_key x l ≡ₚ x :: l.
Proof.
  induction l as [|y l IH]; simpl; [done|].
  destruct (key_ltb _ _); [|done]. rewrite IH. apply perm_swap.
Qed.

Lemma sort_keys_perm l : sort_keys l ≡ₚ l.
Proof.
  induction l as [|x l IH]; simpl; [done|]. by rewrite insert_key_perm, IH.
Qed.

Lemma insert_key_sorted x l :
  StronglySorted not_older l -> StronglySorted not_older (insert_key x l).
Proof.
  induction 1 as [|y l Hl IH Hy]; simpl.
  - repeat constructor.
  - destruct (key_ltb (key_of x) (key_of y)) eqn:Hlt.
    + constructor; [done|]. rewrite insert_key_perm.
      constructor; [by apply key_ltb_asym | done].
    + constructor; [by constructor|]. constructor; [done|].
      eapply Forall_impl; [exact Hy|]. intros z Hz. by transitivity y.
Qed.

Lemma sort_keys_sorted l : StronglySorted not_older (sort_keys l).
Proof.
  induction l as [|x l IH]; simpl; [constructor | by apply insert_key_sorted].
Qed.

Lemma StronglySorted_sublist {A} (R : relation A) (l k : list A) :
  l `sublist_of` k -> StronglySorted R k -> StronglySorted R l.
Proof.
  induction 1 as [|x l k Hs IH|x l k Hs IH]; intros Hk; [done| |].
  - apply StronglySorted_inv in Hk as [Hk Hx].
    constructor; [by apply IH|].
    rewrite Forall_forall in Hx |- *. intros y Hy. apply Hx.
    by apply (elem_of_sublist l k).
  - apply StronglySorted_inv in Hk as [Hk _]. by apply IH.
Qed.

Lemma batch_of_sublist W msgs : batch_of W msgs `sublist_of` msgs.
Proof.
  induction msgs as [|msg rest IH]; simpl; [done|].
  destruct (msg_id msg) as [cur|]; [|by constructor].
  destruct (cur >? W); [by constructor | apply sublist_nil_l].
Qed.

(** ** The sort raises exactly when two keys cannot be compared *)

Lemma py_eq_refl a : py_eq a a = true.
Proof.
  destruct a as [|b|n|s]; value_cases; try done; [lia | lia | apply String.eqb_refl].
Qed.

Lemma py_eq_sym a b : py_eq a b = py_eq b a.
Proof.
  destruct a as [|?|n|s], b as [|?|m|t]; value_cases; try done; try lia.
  apply String.eqb_sym.
Qed.

Lemma py_eq_trans a b c : py_eq a b = true -> py_eq b c = true -> py_eq a c = true.
Proof.
  destruct a as [|?|n|s], b as [|?|m|t], c as [|?|k|u]; value_cases; try done; try lia.
  intros ->%String.eqb_eq ->%String.eqb_eq. apply String.eqb_refl.
Qed.

Lemma value_gt_spec a b :
  value_gt a b = true <-> py_eq a b = false /\ py_lt a b = Ok false.
Proof.
  destruct a as [|?|n|s], b as [|?|m|t]; value_cases;
    try (split; [done | by intros [_ [=]]]);
    try (split; [intros; split; [|f_equal]; lia | intros [? [= ?]]; lia]).
  split.
  - intros H. split.
    + apply String.eqb_neq. intros ->. by rewrite str_ltb_irrefl in H.
    + f_equal. by apply str_ltb_asym.
  - intros [Hne%String.eqb_neq [= Hlt]].
    destruct (String.ltb t s) eqn:Hts; [done|]. destruct Hne. by apply str_ltb_total.
Qed.

Lemma value_lt_spec a b : py_lt a b = Ok true <-> value_gt b a = true.
Proof.
  destruct a as [|?|n|s], b as [|?|m|t]; value_cases;
    try (split; [by intros [=] | done]);
    try (split; [intros [= ?]; lia | intros; f_equal; lia]).
  split; [by intros [= ->] | by intros ->].
Qed.

Lemma value_gt_trans a b c :
  value_gt a b = true -> value_gt b c = true -> value_gt a c = true.
Proof.
  destruct a as [|?|n|s], b as [|?|m|t], c as [|?|k|u]; value_cases; try done; try lia.
  intros H1 H2. by apply (str_ltb_trans u t s).
Qed.

Lemma value_eq_gt a b c :
  py_eq a b = true -> value_gt b c = true -> value_gt a c = true.
Proof.
  destruct a as [|?|n|s], b as [|?|m|t], c as [|?|k|u]; value_cases; try done; try lia.
  by intros ->%String.eqb_eq.
Qed.

Lemma value_gt_eq a b c :
  value_gt a b = true -> py_eq b c = true -> value_gt a c = true.
Proof.
  destruct a as [|?|n|s], b as [|?|m|t], c as [|?|k|u]; value_cases; try done; try lia.
  by intros H ->%String.eqb_eq.
Qed.

Lemma value_gt_not_eq a b : value_gt a b = true -> py_eq a b = false.
Proof. by intros [? _]%value_gt_spec. Qed.

(** The three ways in which a key is not less than another. *)
Lemma tuple_ge_cases a b :
  tuple_lt a b = Ok false <->
  (py_eq a.1 b.1 = true /\ py_eq a.2 b.2 = true) \/
  (py_eq a.1 b.1 = true /\ value_gt a.2 b.2 = true) \/
  value_gt a.1 b.1 = true.
Proof.
  unfold tuple_lt. destruct (py_eq a.1 b.1) eqn:H1.
  - destruct (py_eq a.2 b.2) eqn:H2.
    + split; [by left | done].
    + split.
      * intros H. right. left. split; [done|]. by apply value_gt_spec.
      * intros [[_ [=]]|[[_ H]|H]].
        -- by apply value_gt_spec in H as [_ ?].
        -- apply value_gt_not_eq in H. congruence.
  - split.
    + intros H. right. right. by apply value_gt_spec.
    + intros [[[=] _]|[[[=] _]|H]]. by apply value_gt_spec in H as [_ ?].
Qed.

Lemma tuple_lt_cases a b :
  tuple_lt a b = Ok true <->
  (py_eq a.1 b.1 = true /\ value_gt b.2 a.2 = true) \/ value_gt b.1 a.1 = true.
Proof.
  unfold tuple_lt. destruct (py_eq a.1 b.1) eqn:H1.
  - destruct (py_eq a.2 b.2) eqn:H2.
    + split; [done|]. intros [[_ H]|H].
      * apply value_gt_not_eq in H. rewrite py_eq_sym in H. congruence.
      * apply value_gt_not_eq in H. rewrite py_eq_sym in H. congruence.
    + rewrite value_lt_spec. split; [by left|]. intros [[_ H]|H]; [done|].
      apply value_gt_not_eq in H. rewrite py_eq_sym in H. congruence.
  - rewrite value_lt_spec. split; [by right|]. by intros [[[=] _]|H].
Qed.

Lemma tuple_lt_asym a b : tuple_lt a b = Ok true -> tuple_lt b a = Ok false.
Proof.
  rewrite tuple_lt_cases, tuple_ge_cases. intros [[H1 H2]|H].
  - right. left. by rewrite py_eq_sym.
  - by right; right.
Qed.

Lemma tuple_ge_trans a b c :
  tuple_lt a b = Ok false -> tuple_lt b c = Ok false -> tuple_lt a c = Ok false.
Proof.
  rewrite !tuple_ge_cases.
  intros [[H1 H2]|[[H1 H2]|H1]] [[H3 H4]|[[H3 H4]|H3]].
  - left. eauto using py_eq_trans.
  - right. left. eauto using py_eq_trans, value_eq_gt.
  - right. right. eauto using value_eq_gt.
  - right. left. eauto using py_eq_trans, value_gt_eq.
  - right. left. eauto using py_eq_trans, value_gt_trans.
  - right. right. eauto using value_eq_gt.
  - right. right. eauto using value_gt_eq.
  - right. right. eauto using value_gt_eq.
  - right. right. eauto using value_gt_trans.
Qed.

#[local] Instance key_ge_trans : Transitive key_ge.
Proof. intros a b c. apply tuple_ge_trans. Qed.

Lemma comparable_sym a b : comparable a b -> comparable b a.
Proof.
  intros [[] H].
  - exists false. by apply tuple_lt_asym.
  - apply tuple_ge_cases in H as [[H1 H2]|[[H1 H2]|H1]].
    + exists false. apply tuple_ge_cases. left. by rewrite !(py_eq_sym (sort_key b).1),
        !(py_eq_sym (sort_key b).2).
    + exists true. apply tuple_lt_cases. left. by rewrite py_eq_sym.
    + exists true. apply tuple_lt_cases. by right.
Qed.

Lemma insert_desc_sorted x l r :
  Sorted key_ge l -> insert_desc x l = Ok r -> Sorted key_ge r.
Proof.
  intros Hl. revert r. induction Hl as [|y l Hl IH Hy]; intros r; simpl.
  - intros [= <-]. repeat constructor.
  - destruct (tuple_lt (sort_key x) (sort_key y)) as [[]|] eqn:Hxy; simpl; [| |done].
    + destruct (insert_desc x l) as [r'|] eqn:Hr; simpl; [|done].
      intros [= <-]. constructor; [by apply IH|].
      destruct l as [|z l]; simpl in Hr.
      * injection Hr as <-. constructor. by apply tuple_lt_asym.
      * destruct (tuple_lt (sort_key x) (sort_key z)) as [[]|]; simpl in Hr; [| |done].
        -- destruct (insert_desc x l); simpl in Hr; [|done]. injection Hr as <-.
           constructor. by apply HdRel_inv in Hy.
        -- injection Hr as <-. constructor. by apply tuple_lt_asym.
    + intros [= <-]. constructor; [by constructor|]. by constructor.
Qed.

(** Whatever the kinds of the keys, a sort that does not raise leaves the
    list in descending order of the sort's own comparison. *)
Lemma sorted_reverse_sorted l r :
  sorted_reverse l = Ok r -> StronglySorted key_ge r.
Proof.
  intros H. apply Sorted_StronglySorted; [apply _|].
  revert r H. induction l as [|x l IH]; intros r; simpl.
  - intros [= <-]. constructor.
  - destruct (sorted_reverse l) as [r'|]; simpl; [|done].
    apply insert_desc_sorted. by apply IH.
Qed.

Lemma insert_desc_stable m x l r :
  insert_desc x l = Ok r ->
  filter (fun y => same_key m y = true) r = filter (fun y => same_key m y = true) (x :: l).
Proof.
  revert r. induction l as [|y l IH]; intros r; simpl; [by intros [= <-]|].
  destruct (tuple_lt (sort_key x) (sort_key y)) as [[]|] eqn:Hxy; simpl;
    [|by intros [= <-]|done].
  destruct (insert_desc x l) as [r'|]; simpl; [|done]. intros [= <-].
  rewrite !filter_cons, (IH r' eq_refl), filter_cons.
  destruct (decide (same_key m y = true)) as [Hy|Hy],
    (decide (same_key m x = true)) as [Hx|Hx]; try done.
  exfalso. unfold same_key in Hx, Hy.
  apply andb_prop in Hx as [Hx1 Hx2]. apply andb_prop in Hy as [Hy1 Hy2].
  assert (tuple_lt (sort_key x) (sort_key y) = Ok false); [|congruence].
  apply tuple_ge_cases. left. rewrite py_eq_sym in Hx1. rewrite py_eq_sym in Hx2.
  eauto using py_eq_trans.
Qed.

(** The sort is stable: messages with equal keys keep the order they had
    in the list. *)
Lemma sorted_reverse_stable m l r :
  sorted_reverse l = Ok r ->
  filter (fun y => same_key m y = true) r = filter (fun y => same_key m y = true) l.
Proof.
  revert r. induction l as [|x l IH]; intros r; simpl; [by intros [= <-]|].
  destruct (sorted_reverse l) as [r'|]; simpl; [|done].
  intros Hr. rewrite (insert_desc_stable m _ _ _ Hr), !filter_cons.
  by rewrite (IH r' eq_refl).
Qed.

Lemma insert_desc_comparable x l :
  Forall (comparable x) l -> exists r, insert_desc x l = Ok r.
Proof.
  induction 1 as [|y l [c Hc] Hl [r IH]]; simpl; [eauto|].
  rewrite Hc. simpl. destruct c; [|eauto]. rewrite IH. simpl. eauto.
Qed.

(** The sort raises exactly when two keys of the list cannot be compared
    with each other: the outcome does not depend on which pairs the sorting
    algorithm happens to compare. *)
Lemma sorted_reverse_ok_iff l :
  (exists r, sorted_reverse l = Ok r) <->
  (forall a b, a ∈ l -> b ∈ l -> comparable a b).
Proof.
  split.
  - intros [r Hr] a b Ha Hb.
    pose proof (sorted_reverse_sorted _ _ Hr) as Hs.
    pose proof (sorted_reverse_perm _ _ Hr) as Hp.
    rewrite <- Hp in Ha, Hb. clear Hr Hp.
    induction Hs as [|x r Hs IH Hx]; [by apply elem_of_nil in Ha|].
    rewrite Forall_forall in Hx.
    apply elem_of_cons in Ha as [->|Ha], Hb as [->|Hb].
    + exists false. apply tuple_ge_cases. left. by rewrite !py_eq_refl.
    + exists false. by apply Hx.
    + apply comparable_sym. exists false. by apply Hx.
    + by apply IH.
  - induction l as [|x l IH]; intros H; simpl; [eauto|].
    destruct IH as [r Hr].
    { intros a b Ha Hb. apply H; by apply elem_of_cons; right. }
    rewrite Hr. simpl. apply insert_desc_comparable.
    apply Forall_forall. intros y Hy. apply H; [by apply elem_of_cons; left|].
    apply elem_of_cons. right. by rewrite <- (sorted_reverse_perm _ _ Hr).
Qed.

(** ** Facts about the batch *)

Lemma elem_of_batch_of W msgs msg :
  msg ∈ batch_of W msgs -> exists n, msg_id msg = Some n /\ W < n.
Proof.
  induction msgs as [|m rest IH]; simpl; [by intros ?%elem_of_nil|].
  destruct (msg_id m) as [cur|] eqn:Hid; [|done].
  destruct (Z.gtb_spec cur W); [|by intros ?%elem_of_nil].
  intros [->|?]%elem_of_cons; [|by apply IH]. exists cur. split; [done | lia].
Qed.

(** As long as no message read so far has an id at or below [W], the loop
    is still running. *)
Lemma batch_of_app W pre rest :
  Forall (fun m => forall k, msg_id m = Some k -> W < k) pre ->
  batch_of W (pre ++ rest) = batch_of W pre ++ batch_of W rest.
Proof.
  induction 1 as [|m pre Hm Hpre IH]; simpl; [done|].
  destruct (msg_id m) as [cur|]; [|done].
  specialize (Hm cur eq_refl). replace (cur >? W) with true by lia.
  by rewrite IH.
Qed.

Lemma batch_of_all_new W pre :
  Forall (fun m => exists n, msg_id m = Some n /\ W < n) pre -> batch_of W pre = pre.
Proof.
  induction 1 as [|m pre (n & Hn & Hlt) Hpre IH]; simpl; [done|].
  rewrite Hn. replace (n >? W) with true by lia. by rewrite IH.
Qed.

Lemma scan_loop_skip last pre x post st :
  msg_id x = None ->
  scan_loop last (pre ++ x :: post) st = scan_loop last (pre ++ post) st.
Proof.
  intros Hx. revert st. induction pre as [|m pre IH]; intros st; simpl.
  - by rewrite (scan_body_skip last st x Hx).
  - destruct (scan_body last st m) as [[st'|st']|]; simpl; [apply IH | done | done].
Qed.

Lemma scan_loop_break last pre x post st :
  (forall st', scan_body last st' x = Ok (Break st')) ->
  scan_loop last (pre ++ x :: post) st = scan_loop last pre st.
Proof.
  intros Hx. revert st. induction pre as [|m pre IH]; intros st; simpl.
  - by rewrite Hx.
  - destruct (scan_body last st m) as [[st'|st']|]; simpl; [apply IH | done | done].
Qed.

(** * The scan and the engine *)

(** C1. Every record of the batch has an integer sequence id strictly above
    the watermark [W], and a record with an id above [W] that stands, in
    sorted order, before the first record with an id at or below [W] is in
    the batch (records whose id cannot be read are the only ones left out).
    The batch is taken from the sorted candidates, which are a permutation
    of the fetched ones. *)
Theorem C1_batch_above_watermark_and_complete
    (last : string) (W : Z) (msgs latest : list message) :
  id_str_int last = Ok W ->
  sorted_reverse msgs = Ok latest ->
  exists st,
    engine last msgs = Ok st /\
    latest ≡ₚ msgs /\
    new_messages_found st `sublist_of` latest /\
    (forall msg, msg ∈ new_messages_found st ->
       exists n, msg_id msg = Some n /\ W < n) /\
    (forall pre msg post n,
       latest = pre ++ msg :: post ->
       Forall (fun m => forall k, msg_id m = Some k -> W < k) pre ->
       msg_id msg = Some n -> W < n ->
       msg ∈ new_messages_found st).
Proof.
  intros HW Hs. destruct (scan_spec last W latest HW) as (st & Hscan & Hb & _).
  exists st. unfold engine. rewrite Hs. simpl. split; [done|].
  split; [by apply sorted_reverse_perm|]. rewrite Hb.
  split; [apply batch_of_sublist|]. split; [apply elem_of_batch_of|].
  intros pre msg post n -> Hpre Hid Hlt.
  rewrite (batch_of_app _ _ _ Hpre). apply elem_of_app. right. simpl.
  rewrite Hid. replace (n >? W) with true by lia. apply elem_of_cons. by left.
Qed.

(** C5. When the record at position [k] of the list the scan reads is the
    first whose id is not above [W], and all records before it have ids
    above [W], the scan stops there and the batch is exactly the records
    before position [k].  The list the scan reads is the sorted one; a
    candidate set that is already in the sort's descending order is left
    as it is by the sort, and the batch of the engine is the same. *)
Theorem C5_early_termination
    (last : string) (W : Z) (pre : list message) (x : message)
    (post : list message) (k : Z) :
  id_str_int last = Ok W ->
  Forall (fun m => exists n, msg_id m = Some n /\ W < n) pre ->
  msg_id x = Some k -> k <= W ->
  (forall st', scan_body last st' x = Ok (Break st')) /\
  (exists st,
     scan last (pre ++ x :: post) = Ok st /\
     new_messages_found st = pre /\
     new_messages_found st = take (length pre) (pre ++ x :: post)) /\
  (Sorted key_ge (pre ++ x :: post) ->
   exists st,
     engine last (pre ++ x :: post) = Ok st /\ new_messages_found st = pre).
Proof.
  intros HW Hpre Hx Hk.
  split; [intros st'; by apply (scan_body_old last W st' x k)|].
  destruct (scan_spec last W (pre ++ x :: post) HW) as (st & Hscan & Hb & _).
  assert (Hbatch : new_messages_found st = pre).
  { rewrite Hb, batch_of_app.
    - rewrite (batch_of_all_new _ _ Hpre). simpl. rewrite Hx.
      replace (k >? W) with false by lia. apply app_nil_r.
    - eapply Forall_impl; [exact Hpre|]. intros m (n & Hn & Hlt) j Hj. congruence. }
  split.
  - exists st. split; [done|]. split; [done|]. by rewrite take_app_length.
  - intros Hsorted. exists st. unfold engine.
    rewrite (sorted_reverse_fixed _ Hsorted). simpl. by split.
Qed.

(** C6. A record whose id cannot be converted is skipped, alone: the scan
    goes on as if the record were not in the list, whatever the stored id.
    A new record right after it is still appended. *)
Theorem C6_unreadable_id_skipped
    (last : string) (pre : list message) (x : message) (post : list message) :
  current_msg_id_int (dict_get x "SN") = Raise ValueError ->
  scan last (pre ++ x :: post) = scan last (pre ++ post) /\
  (forall W m n,
     id_str_int last = Ok W -> msg_id m = Some n -> W < n ->
     exists st, scan last (x :: m :: post) = Ok st /\
                exists rest, new_messages_found st = m :: rest).
Proof.
  intros Hx%msg_id_None. split; [by apply scan_loop_skip|].
  intros W m n HW Hm Hlt.
  destruct (scan_spec last W (x :: m :: post) HW) as (st & Hscan & Hb & _).
  exists st. split; [done|]. rewrite Hb. simpl. rewrite Hx, Hm.
  replace (n >? W) with true by lia. eauto.
Qed.

(** C9 as stated fails for a negative stored id: 0 is then above it, and
    the record without [SN] is appended like any new record, with the ones
    after it. *)
Lemma C9_missing_id_is_new_below_zero :
  dict_get msg_without_sn "SN" = VNone /\
  scan "-5" [msg_without_sn; msg_sn (VInt 105)]
    = Ok {| new_messages_found := [msg_without_sn; msg_sn (VInt 105)];
            current_most_recent_id := "105" |} /\
  scan "-5" [] = Ok {| new_messages_found := []; current_most_recent_id := "-5" |}.
Proof. vm_compute. repeat split. Qed.

(** C9, amended.  A record without an [SN] (missing, or [None]) is given
    the id 0.  Against a stored id that reads as [W >= 0] it is not new, so
    the loop breaks at it: the result is that of the records before it, and
    no record after it reaches the batch, new or not. *)
Theorem C9_missing_id_breaks
    (last : string) (W : Z) (pre : list message) (x : message) (post : list message) :
  id_str_int last = Ok W -> 0 <= W ->
  dict_get x "SN" = VNone ->
  msg_id x = Some 0 /\
  (forall st, scan_body last st x = Ok (Break st)) /\
  scan last (pre ++ x :: post) = scan last pre.
Proof.
  intros HW HW0 Hx.
  assert (Hid : msg_id x = Some 0) by (unfold msg_id; by rewrite Hx).
  assert (Hbr : forall st, scan_body last st x = Ok (Break st)).
  { intros st. by apply (scan_body_old last W st x 0). }
  split; [done|]. split; [done|]. by apply scan_loop_break.
Qed.

(** ** Sorted order of the batch *)

Lemma not_older_not_newer a b : not_older a b <-> ~ newer b a.
Proof. unfold not_older, newer. destruct (key_ltb _ _); split; congruence. Qed.

Lemma sorted_distinct_strict (l : list message) :
  StronglySorted not_older l -> NoDup (key_of <$> l) -> StronglySorted newer l.
Proof.
  induction 1 as [|x l Hl IH Hx]; simpl; [constructor|].
  intros [Hnx Hnd]%NoDup_cons. constructor; [by apply IH|].
  rewrite Forall_forall in Hx |- *. intros y Hy. specialize (Hx y Hy).
  unfold newer. destruct (key_ltb (key_of y) (key_of x)) eqn:Hyx; [done|].
  destruct Hnx. rewrite (key_ltb_ge_antisym _ _ Hx Hyx).
  apply list_elem_of_fmap. eauto.
Qed.

Lemma scan_batch_sublist last msgs st :
  scan last msgs = Ok st -> new_messages_found st `sublist_of` msgs.
Proof.
  destruct (id_str_int_cases last) as [[W HW]|HW].
  - destruct (scan_spec last W msgs HW) as (st' & -> & Hb & _).
    intros [= <-]. rewrite Hb. apply batch_of_sublist.
  - unfold scan. rewrite (scan_loop_unreadable _ _ _ HW). intros [= <-].
    apply sublist_nil_l.
Qed.

(** C3, amended.  On candidates whose [CRT_DT] is a string and whose [SN]
    is an integer (either may be missing), the sort never raises and puts
    the candidates in descending order of (created_at, sequence_id),
    strings compared lexicographically and integers by value; the batch is
    in that order too: no record of it is older than one before it, and
    each is strictly newer than the ones after it when no two candidates
    have the same pair. *)
Theorem C3_sorted_newest_first (last : string) (msgs : list message) :
  Forall int_keyed msgs ->
  exists latest st,
    sorted_reverse msgs = Ok latest /\
    latest ≡ₚ msgs /\
    StronglySorted not_older latest /\
    engine last msgs = Ok st /\
    StronglySorted not_older (new_messages_found st) /\
    (NoDup (key_of <$> msgs) -> StronglySorted newer (new_messages_found st)).
Proof.
  intros Hk. pose proof (sorted_reverse_int_keyed _ Hk) as Hs.
  destruct (scan_total last (sort_keys msgs)) as [st Hscan].
  exists (sort_keys msgs), st. split; [done|].
  split; [apply sort_keys_perm|]. split; [apply sort_keys_sorted|].
  unfold engine. rewrite Hs. simpl. split; [done|].
  pose proof (scan_batch_sublist _ _ _ Hscan) as Hsub.
  assert (Hsorted : StronglySorted not_older (new_messages_found st)).
  { eapply StronglySorted_sublist; [exact Hsub | apply sort_keys_sorted]. }
  split; [done|]. intros Hnd. apply sorted_distinct_strict; [done|].
  apply (sublist_NoDup _ (key_of <$> sort_keys msgs));
    [by rewrite sort_keys_perm | by apply fmap_sublist].
Qed.

(** ** C2: the id that is saved *)

(** Lines 200 to 203 keep, in [current_most_recent_id], the largest id among
    the stored one and those of the batch. *)
Lemma scan_most_recent_is_max last W msgs :
  id_str_int last = Ok W ->
  exists st,
    scan last msgs = Ok st /\
    id_str_int (current_most_recent_id st) = Ok (max_id W (new_messages_found st)) /\
    W <= max_id W (new_messages_found st).
Proof.
  intros HW. destruct (scan_spec last W msgs HW) as (st & Hs & Hb & Hm).
  exists st. rewrite Hb. split; [done|]. split; [done|].
  unfold max_id. generalize (batch_of W msgs). intros l.
  assert (forall M, M <= foldl (fun acc msg => match msg_id msg with
                                            | Some cur => acc `max` cur
                                            | None => acc
                                            end) M l) as H; [|apply H].
  induction l as [|m l IH]; intros M; simpl; [lia|].
  etransitivity; [|apply IH]. destruct (msg_id m); lia.
Qed.

(** C2.  The scheduler saves the [SN] of the first message of the batch
    (line 215), not the maximum it has computed.  Two feeds on a first run
    (no blob yet):
    - ids 5 and 7, the message with id 5 carrying the later [CRT_DT]: the
      batch is 5, 7, the computed maximum is 7, the saved value is 5;
    - ids "9" and "10" as strings under one [CRT_DT]: the sort compares them
      as strings, the batch is "9", "10", the computed maximum is 10, the
      saved value is 9. *)
Theorem C2_saved_id_is_first_of_batch :
  (engine "" feed_late_5
     = Ok {| new_messages_found :=
               [msg_of "2024/05/02 09:00:00" (VInt 5); msg_of "2024/05/01 09:00:00" (VInt 7)];
             current_most_recent_id := "7" |} /\
   blob_after (env_of LoadAbsent (Json (Body feed_late_5))) None = Some "5") /\
  (engine "" feed_str_ids
     = Ok {| new_messages_found :=
               [msg_of "2024/05/01 09:00:00" (VStr "9"); msg_of "2024/05/01 09:00:00" (VStr "10")];
             current_most_recent_id := "10" |} /\
   blob_after (env_of LoadAbsent (Json (Body feed_str_ids))) None = Some "9").
Proof. vm_compute. repeat split. Qed.

(** ** C3: where the batch is not strictly newest-first *)

(** C3 as stated fails on two feeds (first run).  The same record twice:
    both copies are in the batch, and neither is newer than the other.
    Ids "10" and "9" as strings under one [CRT_DT]: the sort compares the
    ids as strings, and the batch has 9 before 10. *)
Lemma C3_batch_not_strictly_newest_first :
  (exists st, engine "" [msg_5; msg_5] = Ok st /\
              new_messages_found st = [msg_5; msg_5] /\
              ~ Sorted newer (new_messages_found st)) /\
  (exists st, engine "" [msg_str_10; msg_str_9] = Ok st /\
              new_messages_found st = [msg_str_9; msg_str_10] /\
              msg_id msg_str_9 = Some 9 /\ msg_id msg_str_10 = Some 10 /\
              ~ Sorted newer (new_messages_found st)).
Proof.
  split.
  - eexists. split; [vm_compute; reflexivity|]. split; [reflexivity|].
    simpl. intros H. apply Sorted_inv in H as [_ H]. apply HdRel_inv in H.
    vm_compute in H. discriminate.
  - eexists. split; [vm_compute; reflexivity|]. split; [reflexivity|].
    split; [vm_compute; reflexivity|]. split; [vm_compute; reflexivity|].
    simpl. intros H. apply Sorted_inv in H as [_ H]. apply HdRel_inv in H.
    vm_compute in H. discriminate.
Qed.

(** ** C7: a stored id that is missing or unreadable *)

Lemma rstrip_blank space s : string_forallb space s = true -> rstrip space s = "".
Proof.
  induction s as [|c r IH]; simpl; [done|].
  intros [Hc Hr]%andb_prop. by rewrite (IH Hr), Hc.
Qed.

(** A blob of white space only is loaded as the empty string. *)
Lemma load_blank raw :
  string_forallb Py_UNICODE_ISSPACE raw = true ->
  (load_last_processed (LoadContent raw)).1.1 = "".
Proof.
  intros H. simpl. unfold str_strip, strip. by rewrite (rstrip_blank _ _ H).
Qed.

(** C7 as stated fails for an unreadable stored id: with ["abc"] in the
    blob, a record with id 5 is skipped, where a stored 0 lets it in. *)
Lemma C7_unreadable_stored_id_skips_all :
  id_str_int "abc" = Raise ValueError /\
  msg_id (msg_sn (VInt 5)) = Some 5 /\
  engine "abc" [msg_sn (VInt 5)]
    = Ok {| new_messages_found := []; current_most_recent_id := "abc" |} /\
  engine "0" [msg_sn (VInt 5)]
    = Ok {| new_messages_found := [msg_sn (VInt 5)]; current_most_recent_id := "5" |}.
Proof. vm_compute. repeat split. Qed.

(** C7, amended.  A missing blob, a failed read and an empty or blank blob
    all leave the stored id empty, and the scan then runs as with a stored
    0: the batch holds the records with a readable id above 0 up to the
    first record whose id is not above 0.  A stored id that is not empty
    and cannot be read as an integer makes every iteration end in the
    [except] branch: the batch is empty. *)
Theorem C7_missing_is_zero_unreadable_skips (msgs latest : list message) :
  sorted_reverse msgs = Ok latest ->
  (load_last_processed LoadAbsent).1.1 = "" /\
  (forall b, (load_last_processed (LoadRaises b)).1.1 = "") /\
  (forall raw, string_forallb Py_UNICODE_ISSPACE raw = true ->
               (load_last_processed (LoadContent raw)).1.1 = "") /\
  (exists st st0,
     engine "" msgs = Ok st /\ engine "0" msgs = Ok st0 /\
     new_messages_found st = new_messages_found st0 /\
     new_messages_found st = batch_of 0 latest) /\
  (forall last,
     id_str_int last = Raise ValueError ->
     engine last msgs = Ok {| new_messages_found := []; current_most_recent_id := last |}).
Proof.
  intros Hs. split; [done|]. split; [done|]. split; [apply load_blank|]. split.
  - destruct (scan_spec "" 0 latest eq_refl) as (st & H1 & Hb1 & _).
    destruct (scan_spec "0" 0 latest eq_refl) as (st0 & H2 & Hb2 & _).
    exists st, st0. unfold engine. rewrite Hs. simpl.
    split; [done|]. split; [done|]. split; congruence.
  - intros last HW. unfold engine. rewrite Hs. simpl.
    by apply scan_loop_unreadable.
Qed.

(** ** The run *)

Lemma stage_notice_webhook e : stage_notice e -> is_webhook e.
Proof. by destruct e as [[]| |]. Qed.

Lemma stage_notices_webhooks t : Forall stage_notice t -> Forall is_webhook t.
Proof. intros H. eapply Forall_impl; [exact H | apply stage_notice_webhook]. Qed.

Lemma load_notices b : Forall stage_notice (load_last_processed b).2.
Proof. destruct b; simpl; repeat constructor. Qed.

Lemma fetch_latest_notices r : Forall stage_notice (fetch_latest r).2.
Proof.
  destruct r as [| | |[l|]]; simpl; try (repeat constructor).
  destruct (sorted_reverse l); simpl; repeat constructor.
Qed.

Lemma load_webhooks b : Forall is_webhook (load_last_processed b).2.
Proof. apply stage_notices_webhooks, load_notices. Qed.

Lemma fetch_latest_webhooks r : Forall is_webhook (fetch_latest r).2.
Proof. apply stage_notices_webhooks, fetch_latest_notices. Qed.

(** A run either returns early, having only notified, or gets to the end
    through the delivery of the batch the scan has produced.  No exception
    leaves the scan. *)
Lemma scheduler_cases env :
  (exists t, disaster_message_scheduler env = (Returned, t) /\ Forall stage_notice t) \/
  (exists latest st,
     (fetch_latest (api env)).1 = Some latest /\
     scan (load_last_processed (blob env)).1.1 latest = Ok st /\
     disaster_message_scheduler env =
       (Completed,
        (load_last_processed (blob env)).2 ++ (fetch_latest (api env)).2 ++
        deliver env (load_last_processed (blob env)).1.2 (new_messages_found st))).
Proof.
  unfold disaster_message_scheduler.
  destruct (env_missing (BlobStorageConnectionString env)).
  { left. eexists. split; [done|]. repeat constructor. }
  pose proof (load_notices (blob env)) as Ht1.
  destruct (load_last_processed (blob env)) as [[last bound] t1]. simpl in *.
  destruct (env_missing (DisasterMsgApiKey env)).
  { left. eexists. split; [done|]. apply Forall_app. split; [done|]. repeat constructor. }
  pose proof (fetch_latest_notices (api env)) as Ht2.
  destruct (fetch_latest (api env)) as [[latest|] t2]; simpl in *.
  - right. destruct (scan_total last latest) as [st Hst]. rewrite Hst. eauto.
  - left. eexists. split; [done|]. by apply Forall_app.
Qed.

Lemma deliver_cons env bound first rest :
  deliver env bound (first :: rest) =
    EventSet (first :: rest)
      :: (if event_set_raises env then [Webhook MsgEventHubFailed] else [])
      ++ alerts (first :: rest)
      ++ save_last_processed env bound (dict_get first "SN").
Proof. reflexivity. Qed.

Lemma deliver_event_set env bound nm batch :
  EventSet batch ∈ deliver env bound nm ->
  batch = nm /\ exists first, head batch = Some first.
Proof.
  destruct nm as [|first rest].
  - intros [[=]|[]%elem_of_nil]%elem_of_cons.
  - rewrite deliver_cons.
    intros [[= ->]|H]%elem_of_cons; [simpl; eauto|]. exfalso.
    apply elem_of_app in H as [H|H].
    { destruct (event_set_raises env); [|by apply elem_of_nil in H].
      by apply elem_of_cons in H as [[=]|?%elem_of_nil]. }
    apply elem_of_app in H as [H|H].
    { apply list_elem_of_fmap in H as (m & [=] & _). }
    unfold save_last_processed in H.
    destruct (id_to_save_valid _), bound, (upload_blob_raises env);
      repeat (apply elem_of_cons in H as [[=]|H]); by apply elem_of_nil in H.
Qed.

Lemma webhooks_no_event_set t batch : Forall is_webhook t -> EventSet batch ∉ t.
Proof. rewrite Forall_forall. intros H Hin. exact (H _ Hin). Qed.

(** Where a run hands a batch to Event Hubs, it is the batch of the scan,
    it is not empty, and the effects are those of the delivery after
    notifications only. *)
Lemma scheduler_event_set env batch :
  EventSet batch ∈ (disaster_message_scheduler env).2 ->
  exists t0 latest st first,
    Forall is_webhook t0 /\
    scan (load_last_processed (blob env)).1.1 latest = Ok st /\
    new_messages_found st = batch /\
    head batch = Some first /\
    disaster_message_scheduler env =
      (Completed, t0 ++ deliver env (load_last_processed (blob env)).1.2 batch).
Proof.
  destruct (scheduler_cases env) as [(t & -> & Ht)|(latest & st & Hf & Hscan & ->)]; simpl.
  - intros H. by apply webhooks_no_event_set in H; [|apply stage_notices_webhooks].
  - intros H. rewrite app_assoc in H. apply elem_of_app in H as [H|H].
    { apply webhooks_no_event_set in H; [done|]. apply Forall_app.
      split; [apply load_webhooks | apply fetch_latest_webhooks]. }
    apply deliver_event_set in H as [-> [first Hfirst]].
    exists ((load_last_processed (blob env)).2 ++ (fetch_latest (api env)).2), latest, st, first.
    split; [apply Forall_app; split; [apply load_webhooks | apply fetch_latest_webhooks]|].
    split; [done|]. split; [done|]. split; [done|]. by rewrite app_assoc.
Qed.

(** ** C4: failures of the API call *)

(** C4 as stated fails for a response without ["body"]: the run warns, then
    goes on as with an empty list, to the notification that there is nothing
    new and to its end. *)
Lemma C4_missing_body_is_not_a_failure :
  disaster_message_scheduler env_no_body
    = (Completed, [Webhook MsgNoBodyWarning; Webhook MsgNoNewMessages]) /\
  disaster_message_scheduler (env_of (LoadContent "100") (Json (Body [])))
    = (Completed, [Webhook MsgNoNewMessages]) /\
  ~ treated_as_fetch_failure env_no_body.
Proof.
  split; [vm_compute; reflexivity|]. split; [vm_compute; reflexivity|].
  intros [text H]. vm_compute in H. discriminate.
Qed.

(** C4, amended.  Past the two configuration tests: when the API call, the
    decoding of its answer or the sort raises, the run notifies once and
    returns; when the answer has no list under ["body"], the run notifies a
    warning and goes on with an empty list, to the notification that there
    is nothing new.  In all these cases nothing is handed to Event Hubs and
    nothing is uploaded to the blob. *)
Theorem C4_fetch_failures (env : environment) :
  env_missing (BlobStorageConnectionString env) = false ->
  env_missing (DisasterMsgApiKey env) = false ->
  let t1 := (load_last_processed (blob env)).2 in
  let run := disaster_message_scheduler env in
  (api env = RequestException -> run = (Returned, t1 ++ [Webhook MsgRequestFailed])) /\
  (api env = JSONDecodeError -> run = (Returned, t1 ++ [Webhook MsgJsonParseFailed])) /\
  (api env = OtherException -> run = (Returned, t1 ++ [Webhook MsgUnexpectedError])) /\
  (forall l e, api env = Json (Body l) -> sorted_reverse l = Raise e ->
     run = (Returned, t1 ++ [Webhook MsgUnexpectedError])) /\
  (api env = Json NoBody ->
     run = (Completed, t1 ++ [Webhook MsgNoBodyWarning; Webhook MsgNoNewMessages])) /\
  ((fetch_latest (api env)).1 = None \/ api env = Json NoBody ->
     Forall is_webhook run.2).
Proof.
  intros Hc Hk t1 run. subst t1 run. unfold disaster_message_scheduler.
  rewrite Hc. pose proof (load_webhooks (blob env)) as Ht1.
  destruct (load_last_processed (blob env)) as [[last bound] t1]. simpl in *.
  rewrite Hk.
  repeat split.
  - by intros ->.
  - by intros ->.
  - by intros ->.
  - intros l e -> Hl. simpl. by rewrite Hl.
  - intros ->. simpl. destruct (scan_total last []) as [st Hst].
    unfold scan in *. simpl in *. by injection Hst as <-.
  - intros [H| ->].
    + destruct (fetch_latest (api env)) as [[latest|] t2] eqn:Hf; [done|]. simpl.
      apply Forall_app. split; [done|].
      pose proof (fetch_latest_webhooks (api env)) as Ht2. by rewrite Hf in Ht2.
    + simpl. apply Forall_app. split; [done|]. repeat constructor.
Qed.

(** ** C10: the id that is saved is a valid one *)

Lemma id_to_save_valid_spec v :
  id_to_save_valid v = true <-> v <> VNone /\ v <> VStr "".
Proof.
  destruct v as [|b|n|s]; simpl.
  - split; [done | by intros []].
  - split; [done | done].
  - split; [done | done].
  - destruct (String.eqb_spec s ""); simpl; split; try done.
    + intros [_ []]. by subst.
    + intros _. split; [done | congruence].
Qed.

(** A record the scan has found new against a stored id that is not
    negative carries an [SN] that is neither [None] nor empty. *)
Lemma new_id_to_save_valid W msg n :
  0 <= W -> msg_id msg = Some n -> W < n ->
  id_to_save_valid (dict_get msg "SN") = true.
Proof.
  intros HW Hid Hlt. apply id_to_save_valid_spec. unfold msg_id in Hid.
  split; intros Hv; rewrite Hv in Hid; simpl in Hid.
  - injection Hid as <-. lia.
  - vm_compute in Hid. discriminate.
Qed.

Lemma notices_no_invalid_id t :
  Forall stage_notice t -> Webhook MsgInvalidIdWarning ∉ t.
Proof. rewrite Forall_forall. intros H Hin. exact (H _ Hin). Qed.

(** The warning of line 265 is only sent from the [else] branch of the
    test on the id to save. *)
Lemma scheduler_invalid_id env :
  Webhook MsgInvalidIdWarning ∈ (disaster_message_scheduler env).2 ->
  exists latest st first,
    scan (load_last_processed (blob env)).1.1 latest = Ok st /\
    head (new_messages_found st) = Some first /\
    id_to_save_valid (dict_get first "SN") = false.
Proof.
  destruct (scheduler_cases env) as [(t & -> & Ht)|(latest & st & Hf & Hscan & ->)]; simpl.
  - intros H. by apply notices_no_invalid_id in H.
  - intros H. exists latest, st.
    apply elem_of_app in H as [H|H].
    { by apply notices_no_invalid_id in H; [|apply load_notices]. }
    apply elem_of_app in H as [H|H].
    { by apply notices_no_invalid_id in H; [|apply fetch_latest_notices]. }
    destruct (new_messages_found st) as [|first rest]; [simpl in H; not_in_list H|].
    exists first. split; [done|]. split; [done|].
    rewrite deliver_cons in H. apply elem_of_cons in H as [[=]|H].
    apply elem_of_app in H as [H|H].
    { destruct (event_set_raises env); not_in_list H. }
    apply elem_of_app in H as [H|H].
    { apply list_elem_of_fmap in H as (m & [=] & _). }
    unfold save_last_processed in H.
    destruct (id_to_save_valid (dict_get first "SN")); [|done].
    destruct (load_last_processed (blob env)).1.2, (upload_blob_raises env); not_in_list H.
Qed.

(** When the stored id, if it reads as an integer, is not negative: the
    first record of a batch handed on has an [SN] that is neither [None]
    nor the empty string, the warning of the branch that skips the save is
    never sent, and the upload of that [SN] is made (whenever the blob
    client exists). *)
Lemma scheduler_saved_id_valid (env : environment) :
  (forall W, id_str_int (load_last_processed (blob env)).1.1 = Ok W -> 0 <= W) ->
  (Webhook MsgInvalidIdWarning ∉ (disaster_message_scheduler env).2) /\
  (forall batch,
     EventSet batch ∈ (disaster_message_scheduler env).2 ->
     exists first,
       head batch = Some first /\
       dict_get first "SN" <> VNone /\ dict_get first "SN" <> VStr "" /\
       id_to_save_valid (dict_get first "SN") = true /\
       ((load_last_processed (blob env)).1.2 = true ->
        UploadBlob (py_str (dict_get first "SN")) ∈ (disaster_message_scheduler env).2) /\
       ((load_last_processed (blob env)).1.2 = false ->
        Webhook MsgBlobSaveFailed ∈ (disaster_message_scheduler env).2)).
Proof.
  intros Hnn.
  assert (Hvalid : forall latest st first,
            scan (load_last_processed (blob env)).1.1 latest = Ok st ->
            head (new_messages_found st) = Some first ->
            id_to_save_valid (dict_get first "SN") = true).
  { intros latest st first Hscan Hfirst.
    destruct (id_str_int_cases (load_last_processed (blob env)).1.1) as [[W HW]|HW].
    - destruct (scan_spec _ W latest HW) as (st' & Hscan' & Hb & _).
      rewrite Hscan in Hscan'. injection Hscan' as <-.
      destruct (elem_of_batch_of W latest first) as (n & Hn & Hlt).
      { rewrite <- Hb. destruct (new_messages_found st); [done|].
        injection Hfirst as ->. apply elem_of_cons. by left. }
      eapply new_id_to_save_valid; eauto.
    - unfold scan in Hscan. rewrite (scan_loop_unreadable _ _ _ HW) in Hscan.
      injection Hscan as <-. done. }
  split.
  - intros (latest & st & first & Hscan & Hfirst & Hinv)%scheduler_invalid_id.
    by rewrite (Hvalid _ _ _ Hscan Hfirst) in Hinv.
  - intros batch Hin.
    destruct (scheduler_event_set env batch Hin)
      as (t0 & latest & st & first & Ht0 & Hscan & Hb & Hfirst & Hrun).
    exists first. split; [done|].
    assert (Hv : id_to_save_valid (dict_get first "SN") = true).
    { apply (Hvalid latest st first Hscan). by rewrite Hb. }
    pose proof (proj1 (id_to_save_valid_spec _) Hv) as [? ?].
    split; [done|]. split; [done|]. split; [done|].
    rewrite Hrun. simpl.
    destruct batch as [|m rest]; [done|]. injection Hfirst as ->.
    rewrite deliver_cons. unfold save_last_processed. rewrite Hv.
    split; intros ->; apply elem_of_app; right; apply elem_of_cons; right;
      apply elem_of_app; right; apply elem_of_app; right;
      apply elem_of_cons; by left.
Qed.

(** ** C8: a failure of Event Hubs *)

(** C8 as stated fails where the first record of the batch has no [SN]
    (it is new against a negative stored id): after the failure of
    [event.set] the run notifies and alerts, but the save is skipped with
    the warning of line 265 and [upload_blob] is not called. *)
Lemma C8_invalid_id_is_not_saved :
  disaster_message_scheduler env_sink_fails_negative
    = (Completed,
       [EventSet [msg_without_sn];
        Webhook MsgEventHubFailed;
        Webhook (teams_alert_message msg_without_sn);
        Webhook MsgInvalidIdWarning]) /\
  blob_after env_sink_fails_negative (Some "-5") = Some "-5".
Proof. vm_compute. split; reflexivity. Qed.

(** C8, amended.  When the call to Event Hubs raises, the failure is
    notified right after the call and the run goes on to its end: it sends
    the alert of every record of the batch, in the order of the batch, and
    then comes to the save.  There, when the [SN] of the first record is
    neither [None] nor the empty string, [upload_blob] is called with its
    text (where the load had failed before creating the blob client, the
    attempt raises and is notified); when it is [None] or the empty string,
    the save is skipped with the warning.  The first case is the only one
    when the stored id is not negative. *)
Theorem C8_sink_failure_does_not_abort (env : environment) (batch : list message) :
  event_set_raises env = true ->
  EventSet batch ∈ (disaster_message_scheduler env).2 ->
  exists t0 first t3,
    Forall is_webhook t0 /\
    head batch = Some first /\
    disaster_message_scheduler env =
      (Completed,
       t0 ++ EventSet batch :: Webhook MsgEventHubFailed ::
         map (fun msg => Webhook (teams_alert_message msg)) batch ++ t3) /\
    (forall msg,
       msg ∈ batch ->
       Webhook (teams_alert_message msg) ∈ (disaster_message_scheduler env).2) /\
    (dict_get first "SN" = VNone \/ dict_get first "SN" = VStr "" ->
     t3 = [Webhook MsgInvalidIdWarning]) /\
    (dict_get first "SN" <> VNone -> dict_get first "SN" <> VStr "" ->
     match blob env with
     | LoadRaises false => t3 = [Webhook MsgBlobSaveFailed]
     | _ =>
         t3 = UploadBlob (py_str (dict_get first "SN"))
                :: (if upload_blob_raises env then [Webhook MsgBlobSaveFailed] else [])
     end) /\
    ((forall W, id_str_int (load_last_processed (blob env)).1.1 = Ok W -> 0 <= W) ->
     dict_get first "SN" <> VNone /\ dict_get first "SN" <> VStr "").
Proof.
  intros Hraise Hin.
  pose proof Hin as (t0 & latest & st & first & Ht0 & _ & _ & Hfirst & Hrun)%scheduler_event_set.
  destruct batch as [|m rest]; [done|]. simpl in Hfirst. injection Hfirst as <-.
  rewrite deliver_cons, Hraise in Hrun.
  exists t0, m, (save_last_processed env (load_last_processed (blob env)).1.2 (dict_get m "SN")).
  split; [done|]. split; [done|]. split; [exact Hrun|]. split; [|split; [|split]].
  - intros msg Hmsg. rewrite Hrun. cbn [snd].
    apply elem_of_app. right. apply elem_of_cons. right. apply elem_of_app. right.
    apply elem_of_app. left. apply list_elem_of_fmap. by exists msg.
  - unfold save_last_processed. by intros [-> | ->].
  - intros H1 H2. unfold save_last_processed.
    rewrite (proj2 (id_to_save_valid_spec _) (conj H1 H2)).
    by destruct (blob env) as [[]| |raw].
  - intros Hnn. destruct (scheduler_saved_id_valid env Hnn) as [_ H].
    destruct (H _ Hin) as (first & Hfirst & H1 & H2 & _).
    simpl in Hfirst. by injection Hfirst as <-.
Qed.

(** * The theorems at concrete runs *)

Lemma C1_witness :
  id_str_int "100" = Ok 100 /\
  sorted_reverse feed_1 = Ok sorted_feed_1 /\
  exists st,
    engine "100" feed_1 = Ok st /\
    sorted_feed_1 ≡ₚ feed_1 /\
    new_messages_found st `sublist_of` sorted_feed_1 /\
    (forall msg, msg ∈ new_messages_found st ->
       exists n, msg_id msg = Some n /\ 100 < n) /\
    (forall pre msg post n,
       sorted_feed_1 = pre ++ msg :: post ->
       Forall (fun m => forall k, msg_id m = Some k -> 100 < k) pre ->
       msg_id msg = Some n -> 100 < n ->
       msg ∈ new_messages_found st).
Proof.
  split; [vm_compute; reflexivity|]. split; [vm_compute; reflexivity|].
  apply (C1_batch_above_watermark_and_complete "100" 100 feed_1 sorted_feed_1);
    vm_compute; reflexivity.
Defined.

Lemma C3_witness :
  Forall int_keyed feed_1 /\
  exists latest st,
    sorted_reverse feed_1 = Ok latest /\
    latest ≡ₚ feed_1 /\
    StronglySorted not_older latest /\
    engine "100" feed_1 = Ok st /\
    StronglySorted not_older (new_messages_found st) /\
    (NoDup (key_of <$> feed_1) -> StronglySorted newer (new_messages_found st)).
Proof.
  assert (H : Forall int_keyed feed_1).
  { repeat constructor; eexists _, _; vm_compute; reflexivity. }
  split; [exact H|]. exact (C3_sorted_newest_first "100" feed_1 H).
Defined.

Lemma C4_witness :
  env_missing (BlobStorageConnectionString env_timeout) = false /\
  env_missing (DisasterMsgApiKey env_timeout) = false /\
  disaster_message_scheduler env_timeout
    = (Returned, [Webhook MsgBlobLoadFailed; Webhook MsgRequestFailed]).
Proof.
  split; [reflexivity|]. split; [reflexivity|].
  exact (proj1 (C4_fetch_failures env_timeout eq_refl eq_refl) eq_refl).
Defined.

Lemma C5_witness :
  id_str_int "100" = Ok 100 /\
  Forall (fun m => exists n, msg_id m = Some n /\ 100 < n) new_1 /\
  msg_id (msg_sn (VInt 100)) = Some 100 /\ 100 <= 100 /\
  Sorted key_ge (new_1 ++ msg_sn (VInt 100) :: old_1) /\
  (exists st, scan "100" (new_1 ++ msg_sn (VInt 100) :: old_1) = Ok st /\
              new_messages_found st = new_1) /\
  (exists st, engine "100" (new_1 ++ msg_sn (VInt 100) :: old_1) = Ok st /\
              new_messages_found st = new_1).
Proof.
  assert (H1 : id_str_int "100" = Ok 100) by (vm_compute; reflexivity).
  assert (H2 : Sorted key_ge (new_1 ++ msg_sn (VInt 100) :: old_1)).
  { repeat constructor; vm_compute; reflexivity. }
  assert (H3 : Forall (fun m => exists n, msg_id m = Some n /\ 100 < n) new_1).
  { repeat constructor; eexists; (split; [vm_compute; reflexivity | lia]). }
  assert (H4 : msg_id (msg_sn (VInt 100)) = Some 100) by (vm_compute; reflexivity).
  assert (H5 : 100 <= 100) by lia.
  split; [exact H1|]. split; [exact H3|]. split; [exact H4|]. split; [exact H5|].
  split; [exact H2|].
  destruct (C5_early_termination "100" 100 new_1 (msg_sn (VInt 100)) old_1 100 H1 H3 H4 H5)
    as (_ & (st & He & Hb & _) & Hengine).
  split; [exists st; split; [exact He | exact Hb] | exact (Hengine H2)].
Defined.

Lemma C6_witness :
  current_msg_id_int (dict_get msg_abc "SN") = Raise ValueError /\
  scan "100" ([] ++ msg_abc :: [msg_of "2024/05/02" (VStr "105")])
    = scan "100" ([] ++ [msg_of "2024/05/02" (VStr "105")]).
Proof.
  pose (x := msg_abc). pose (post := [msg_of "2024/05/02" (VStr "105")]).
  assert (H : current_msg_id_int (dict_get x "SN") = Raise ValueError)
    by (vm_compute; reflexivity).
  split; [exact H|].
  exact (proj1 (C6_unreadable_id_skipped "100" [] x post H)).
Defined.

Lemma C7_witness :
  sorted_reverse feed_1 = Ok sorted_feed_1 /\
  (forall last,
     id_str_int last = Raise ValueError ->
     engine last feed_1 = Ok {| new_messages_found := []; current_most_recent_id := last |}).
Proof.
  assert (H : sorted_reverse feed_1 = Ok sorted_feed_1) by (vm_compute; reflexivity).
  split; [exact H|].
  exact (proj2 (proj2 (proj2 (proj2
           (C7_missing_is_zero_unreadable_skips feed_1 sorted_feed_1 H))))).
Defined.

Lemma C8_witness :
  event_set_raises env_sink_fails = true /\
  EventSet new_1 ∈ (disaster_message_scheduler env_sink_fails).2 /\
  exists t0 t3,
    disaster_message_scheduler env_sink_fails =
      (Completed,
       t0 ++ EventSet new_1 :: Webhook MsgEventHubFailed ::
         map (fun msg => Webhook (teams_alert_message msg)) new_1 ++ t3) /\
    t3 = [UploadBlob "105"].
Proof.
  assert (H1 : event_set_raises env_sink_fails = true) by reflexivity.
  assert (H2 : EventSet new_1 ∈ (disaster_message_scheduler env_sink_fails).2).
  { vm_compute. apply elem_of_cons. left. reflexivity. }
  split; [exact H1|]. split; [exact H2|].
  destruct (C8_sink_failure_does_not_abort env_sink_fails new_1 H1 H2)
    as (t0 & first & t3 & _ & Hfirst & Hrun & _ & _ & Hsave & _).
  injection Hfirst as <-.
  exists t0, t3. split; [exact Hrun|]. apply Hsave; discriminate.
Defined.

Lemma C9_witness :
  id_str_int "100" = Ok 100 /\ 0 <= 100 /\
  dict_get msg_without_sn "SN" = VNone /\
  msg_id msg_without_sn = Some 0 /\
  scan "100" ([] ++ msg_without_sn :: [msg_of "2024/05/01" (VInt 105)]) = scan "100" [].
Proof.
  pose (x := msg_without_sn). pose (post := [msg_of "2024/05/01" (VInt 105)]).
  assert (H1 : id_str_int "100" = Ok 100) by (vm_compute; reflexivity).
  assert (H2 : 0 <= 100) by lia.
  assert (H3 : dict_get x "SN" = VNone) by (vm_compute; reflexivity).
  split; [exact H1|]. split; [exact H2|]. split; [exact H3|].
  destruct (C9_missing_id_breaks "100" 100 [] x post H1 H2 H3) as (Ha & _ & Hb).
  split; [exact Ha | exact Hb].
Defined.

(** * The stored id over successive runs *)

Lemma Py_ISSPACE_unicode c : Py_ISSPACE c = true -> Py_UNICODE_ISSPACE c = true.
Proof. by destruct c as [[] [] [] [] [] [] [] []]. Qed.

Section StripTwice.
Variables P Q : ascii -> bool.
Hypothesis PQ : forall c, P c = true -> Q c = true.

Lemma rstrip_rstrip s : rstrip Q (rstrip P s) = rstrip Q s.
Proof.
  induction s as [|c r IH]; simpl; [done|].
  destruct (rstrip P r) as [|c' r'] eqn:Hr.
  - simpl in IH. rewrite <- IH.
    destruct (P c) eqn:Hc; simpl; [by rewrite (PQ c Hc) | done].
  - simpl. simpl in IH. by rewrite IH.
Qed.

Lemma lstrip_lstrip s : lstrip Q (lstrip P s) = lstrip Q s.
Proof.
  induction s as [|c r IH]; simpl; [done|].
  destruct (P c) eqn:Hc; [by rewrite (PQ c Hc) | done].
Qed.

Lemma rstrip_of_lstrip s :
  lstrip P s <> "" -> rstrip Q (lstrip P s) = lstrip P s -> rstrip Q s = s.
Proof.
  induction s as [|c r IH]; simpl; [done|].
  destruct (P c); [|done].
  intros Hne Hr. rewrite (IH Hne Hr).
  destruct r; [done | done].
Qed.

(** A string that [strip P] leaves with no [Q]-space at either end is
    stripped to the same by [strip Q]. *)
Lemma strip_strip s :
  strip P s <> "" ->
  rstrip Q (strip P s) = strip P s ->
  lstrip Q (strip P s) = strip P s ->
  strip Q s = strip P s.
Proof.
  unfold strip. intros Hne Hr Hl.
  rewrite <- (rstrip_rstrip s), (rstrip_of_lstrip _ Hne Hr).
  by rewrite <- lstrip_lstrip.
Qed.
End StripTwice.

Section LiteralEnds.
Variable space : ascii -> bool.
Hypothesis space_digit : forall c k, digit_of c = Some k -> space c = false.
Hypothesis space_plus : space "+" = false.
Hypothesis space_minus : space "-" = false.

Lemma int_digits_rstrip d acc b n :
  int_digits d acc b = Some n -> rstrip space d = d.
Proof.
  revert acc b. induction d as [|c r IH]; intros acc b; simpl; [done|].
  destruct (digit_of c) as [k|] eqn:Hc.
  - intros H. rewrite (IH _ _ H). destruct r; [|done].
    by rewrite (space_digit _ _ Hc).
  - destruct (Ascii.eqb c "_" && b)%bool; [|done].
    intros H. rewrite (IH _ _ H). destruct r; [done | done].
Qed.

Lemma int_digits_lstrip d acc n :
  int_digits d acc false = Some n -> lstrip space d = d /\ d <> "".
Proof.
  destruct d as [|c r]; simpl; [done|].
  destruct (digit_of c) as [k|] eqn:Hc.
  - intros _. by rewrite (space_digit _ _ Hc).
  - by rewrite andb_false_r.
Qed.

(** A literal has no white space at either end. *)
Lemma int_literal_ends t n :
  int_literal t = Some n -> t <> "" /\ rstrip space t = t /\ lstrip space t = t.
Proof.
  destruct t as [|c d]; [done|]. unfold int_literal.
  destruct (Ascii.eqb_spec c "+") as [->|Hp]; [|destruct (Ascii.eqb_spec c "-") as [->|Hm]].
  - intros Hd. destruct (int_digits_lstrip _ _ _ Hd) as [_ Hne].
    split; [done|]. simpl. rewrite space_plus. split; [|done].
    rewrite (int_digits_rstrip _ _ _ _ Hd). by destruct d.
  - destruct (int_digits d 0 false) as [k|] eqn:Hd; [|done]. intros _.
    destruct (int_digits_lstrip _ _ _ Hd) as [_ Hne].
    split; [done|]. simpl. rewrite space_minus. split; [|done].
    rewrite (int_digits_rstrip _ _ _ _ Hd). by destruct d.
  - intros Hd. split; [done|]. split.
    + exact (int_digits_rstrip _ _ _ _ Hd).
    + exact (proj1 (int_digits_lstrip _ _ _ Hd)).
Qed.
End LiteralEnds.

Lemma digit_no_space c k : digit_of c = Some k -> Py_ISSPACE c = false.
Proof. by destruct c as [[] [] [] [] [] [] [] []]. Qed.

Lemma digit_no_unicode_space c k : digit_of c = Some k -> Py_UNICODE_ISSPACE c = false.
Proof. by destruct c as [[] [] [] [] [] [] [] []]. Qed.

(** A string that [int()] accepts reads the same after [strip()]. *)
Lemma id_str_int_strip s n :
  int_of_str s = Ok n -> id_str_int (str_strip s) = Ok n.
Proof.
  unfold int_of_str. destruct (int_literal (strip Py_ISSPACE s)) as [k|] eqn:Hk; [|done].
  intros [= ->].
  destruct (int_literal_ends Py_UNICODE_ISSPACE digit_no_unicode_space eq_refl eq_refl _ _ Hk)
    as (Hne & Hr & Hl).
  destruct (int_literal_ends Py_ISSPACE digit_no_space eq_refl eq_refl _ _ Hk)
    as (_ & Hr' & Hl').
  unfold str_strip.
  rewrite (strip_strip Py_ISSPACE Py_UNICODE_ISSPACE Py_ISSPACE_unicode s Hne Hr Hl).
  unfold id_str_int.
  destruct (strip Py_ISSPACE s) as [|c t] eqn:Ht; [done|]. simpl str_truthy. cbv iota.
  unfold int_of_str, strip. rewrite Hr', Hl'. by rewrite Hk.
Qed.

(** What is uploaded reads, on the next load, as the id of the record it
    was taken from. *)
Lemma saved_content_nonneg v n :
  current_msg_id_int v = Ok n -> 0 < n ->
  forall W', id_str_int (str_strip (py_str v)) = Ok W' -> 0 <= W'.
Proof.
  intros Hv Hn W'. destruct v as [|[]|k|s]; simpl in *.
  - injection Hv as <-. lia.
  - vm_compute. discriminate.
  - vm_compute. discriminate.
  - injection Hv as ->.
    rewrite (id_str_int_strip _ _ (int_of_str_of_int n)). intros [= <-]. lia.
  - rewrite (id_str_int_strip _ _ Hv). intros [= <-]. lia.
Qed.

Lemma notices_no_upload t c : Forall stage_notice t -> UploadBlob c ∉ t.
Proof. rewrite Forall_forall. intros H Hin. exact (H _ Hin). Qed.

(** An upload carries the [SN] of the first record of the batch. *)
Lemma scheduler_upload env c :
  UploadBlob c ∈ (disaster_message_scheduler env).2 ->
  exists latest st first,
    scan (load_last_processed (blob env)).1.1 latest = Ok st /\
    head (new_messages_found st) = Some first /\
    c = py_str (dict_get first "SN").
Proof.
  destruct (scheduler_cases env) as [(t & -> & Ht)|(latest & st & Hf & Hscan & ->)]; simpl.
  - intros H. by apply notices_no_upload in H.
  - intros H. exists latest, st.
    apply elem_of_app in H as [H|H].
    { by apply notices_no_upload in H; [|apply load_notices]. }
    apply elem_of_app in H as [H|H].
    { by apply notices_no_upload in H; [|apply fetch_latest_notices]. }
    destruct (new_messages_found st) as [|first rest]; [simpl in H; not_in_list H|].
    exists first. split; [done|]. split; [done|].
    rewrite deliver_cons in H. apply elem_of_cons in H as [[=]|H].
    apply elem_of_app in H as [H|H].
    { destruct (event_set_raises env); not_in_list H. }
    apply elem_of_app in H as [H|H].
    { apply list_elem_of_fmap in H as (m & [=] & _). }
    unfold save_last_processed in H.
    destruct (id_to_save_valid (dict_get first "SN")); [|not_in_list H].
    destruct (load_last_processed (blob env)).1.2, (upload_blob_raises env);
      apply elem_of_cons in H as [[= ->]|H]; try done; not_in_list H.
Qed.

(** What a run loads from a blob whose content is not negative reads, if
    it reads, as an integer that is not negative. *)
Lemma loaded_nonneg b env :
  stored_nonneg b -> reads b (blob env) ->
  forall W, id_str_int (load_last_processed (blob env)).1.1 = Ok W -> 0 <= W.
Proof.
  intros Hb Hr W. destruct (blob env) as [bound| |raw]; simpl in *.
  - intros [= <-]. lia.
  - intros [= <-]. lia.
  - by apply Hb.
Qed.

Lemma run_keeps_nonneg b env :
  stored_nonneg b -> reads b (blob env) -> stored_nonneg (blob_after env b).
Proof.
  intros Hb Hr. unfold blob_after.
  destruct (omap _ _) as [|c cs] eqn:Hup; [done|].
  destruct (upload_blob_raises env); [done|].
  assert (Hin : UploadBlob c ∈ (disaster_message_scheduler env).2).
  { assert (Hc : c ∈ c :: cs) by (apply elem_of_cons; by left).
    rewrite <- Hup in Hc. apply list_elem_of_omap in Hc as (e & He & Hm).
    by destruct e as [| |c']; simplify_eq. }
  apply scheduler_upload in Hin as (latest & st & first & Hscan & Hfirst & ->).
  intros raw W' [= <-].
  destruct (id_str_int_cases (load_last_processed (blob env)).1.1) as [[W HW]|HW].
  - destruct (scan_spec _ W latest HW) as (st' & Hscan' & Hbatch & _).
    rewrite Hscan in Hscan'. injection Hscan' as <-.
    destruct (elem_of_batch_of W latest first) as (n & Hn & Hlt).
    { rewrite <- Hbatch. destruct (new_messages_found st); [done|].
      injection Hfirst as ->. apply elem_of_cons. by left. }
    apply msg_id_Some in Hn. apply (saved_content_nonneg _ n Hn).
    pose proof (loaded_nonneg b env Hb Hr W HW). lia.
  - unfold scan in Hscan. rewrite (scan_loop_unreadable _ _ _ HW) in Hscan.
    by injection Hscan as <-.
Qed.

(** The scheduler never leaves a negative id in the blob. *)
Lemma stored_id_never_negative b : reachable b -> stored_nonneg b.
Proof.
  induction 1 as [|b env Hb IH Hr]; [by intros raw W [=] | by apply run_keeps_nonneg].
Qed.

(** C10 as stated fails for a negative stored id: a record without [SN]
    counts as new (0 is above the stored id), the batch is not empty, the
    [SN] of its first record is [None], and the save is skipped with the
    warning of line 265. *)
Lemma C10_negative_stored_id_reaches_guard :
  dict_get msg_without_sn "SN" = VNone /\
  disaster_message_scheduler env_negative
    = (Completed,
       [EventSet [msg_without_sn];
        Webhook (teams_alert_message msg_without_sn);
        Webhook MsgInvalidIdWarning]).
Proof. vm_compute. split; reflexivity. Qed.

(** C10, amended.  In every run on a blob whose content, if it reads as an
    integer, is not negative: the first record of a batch handed on has an
    [SN] that is neither [None] nor the empty string (it was found to have
    an id above the stored one), the branch that skips the save is not
    taken (its warning is never sent), and the upload of that [SN] is
    attempted: the call is made when the blob client exists, and where the
    load had failed before creating it the attempt raises and is notified.
    The content of the blob after the run is not negative either, and so it
    is after any number of runs from a start without blob. *)
Theorem C10_saved_id_always_valid (b : option string) (env : environment) :
  stored_nonneg b -> reads b (blob env) ->
  (Webhook MsgInvalidIdWarning ∉ (disaster_message_scheduler env).2) /\
  (forall batch,
     EventSet batch ∈ (disaster_message_scheduler env).2 ->
     exists first,
       head batch = Some first /\
       dict_get first "SN" <> VNone /\ dict_get first "SN" <> VStr "" /\
       id_to_save_valid (dict_get first "SN") = true /\
       ((load_last_processed (blob env)).1.2 = true ->
        UploadBlob (py_str (dict_get first "SN")) ∈ (disaster_message_scheduler env).2) /\
       ((load_last_processed (blob env)).1.2 = false ->
        Webhook MsgBlobSaveFailed ∈ (disaster_message_scheduler env).2)) /\
  stored_nonneg (blob_after env b) /\
  (forall b', reachable b' -> stored_nonneg b').
Proof.
  intros Hb Hr. split; [|split; [|split]].
  - by apply scheduler_saved_id_valid, (loaded_nonneg b env).
  - by apply scheduler_saved_id_valid, (loaded_nonneg b env).
  - by apply run_keeps_nonneg.
  - apply stored_id_never_negative.
Qed.

Lemma C10_witness :
  stored_nonneg (blob_after env_first_run None) /\
  reads (blob_after env_first_run None) (blob env_feed_1) /\
  (Webhook MsgInvalidIdWarning ∉ (disaster_message_scheduler env_feed_1).2) /\
  EventSet new_1 ∈ (disaster_message_scheduler env_feed_1).2 /\
  UploadBlob "105" ∈ (disaster_message_scheduler env_feed_1).2.
Proof.
  assert (H1 : stored_nonneg (blob_after env_first_run None)).
  { intros raw W Hraw. vm_compute in Hraw. injection Hraw as <-.
    vm_compute. intros HW. injection HW as <-. discriminate. }
  assert (H2 : reads (blob_after env_first_run None) (blob env_feed_1)).
  { vm_compute. reflexivity. }
  destruct (C10_saved_id_always_valid _ env_feed_1 H1 H2) as (Hw & Hu & _).
  split; [exact H1|]. split; [exact H2|]. split; [exact Hw|].
  assert (H3 : EventSet new_1 ∈ (disaster_message_scheduler env_feed_1).2).
  { vm_compute. apply elem_of_cons. left. reflexivity. }
  split; [exact H3|].
  destruct (Hu new_1 H3) as (first & Hf & _ & _ & _ & Hup & _).
  injection Hf as <-. exact (Hup eq_refl).
Defined.

(** A record without [SN] ends the scan; one with an unreadable [SN] does
    not. *)
Example missing_id_breaks_unreadable_id_skips :
  engine "100" [msg_of "2024/05/03" VNone; msg_of "2024/05/02" (VStr "105")]
    = Ok {| new_messages_found := []; current_most_recent_id := "100" |} /\
  engine "100" [msg_of "2024/05/03" (VStr "abc"); msg_of "2024/05/02" (VStr "105")]
    = Ok {| new_messages_found := [msg_of "2024/05/02" (VStr "105")];
            current_most_recent_id := "105" |}.
Proof. vm_compute. split; reflexivity. Qed.

(** * Further properties *)

(** ** The shape of a run *)

Lemma load_early b : Forall (fun e => early_notice e = true) (load_last_processed b).2.
Proof. destruct b; simpl; repeat constructor. Qed.

Lemma fetch_latest_early r : Forall (fun e => early_notice e = true) (fetch_latest r).2.
Proof.
  destruct r as [| | |[l|]]; simpl; try (repeat constructor).
  destruct (sorted_reverse l); simpl; repeat constructor.
Qed.

(** What [fetch_latest] hands on is the sorted body, or the empty list where
    the answer has no body. *)
Lemma fetch_latest_some r latest :
  (fetch_latest r).1 = Some latest ->
  (exists l, r = Json (Body l) /\ sorted_reverse l = Ok latest /\ (fetch_latest r).2 = []) \/
  (r = Json NoBody /\ latest = []).
Proof.
  destruct r as [| | |[l|]]; simpl; try done.
  - destruct (sorted_reverse l) as [r|] eqn:Hl; simpl; [|done].
    intros [= <-]. left. eauto.
  - intros [= <-]. by right.
Qed.

(** A run returns early after notices of the stages, at least one, or
    completes with the delivery of the scanned batch after such notices. *)
Lemma scheduler_shape env :
  exists t0,
    Forall (fun e => early_notice e = true) t0 /\
    ((t0 <> [] /\ disaster_message_scheduler env = (Returned, t0)) \/
     (exists latest st,
        (fetch_latest (api env)).1 = Some latest /\
        scan (load_last_processed (blob env)).1.1 latest = Ok st /\
        disaster_message_scheduler env =
          (Completed,
           t0 ++ deliver env (load_last_processed (blob env)).1.2 (new_messages_found st)))).
Proof.
  unfold disaster_message_scheduler.
  destruct (env_missing (BlobStorageConnectionString env)).
  { eexists. split; [|left; split; [|done]]; [repeat constructor | done]. }
  pose proof (load_early (blob env)) as Ht1.
  destruct (load_last_processed (blob env)) as [[last bound] t1]. simpl in *.
  destruct (env_missing (DisasterMsgApiKey env)).
  { eexists. split; [|left; split; [|done]].
    - apply Forall_app. split; [done|]. repeat constructor.
    - by destruct t1. }
  pose proof (fetch_latest_early (api env)) as Ht2.
  destruct (fetch_latest (api env)) as [[latest|] t2] eqn:Hf; simpl in *.
  - exists (t1 ++ t2). split; [by apply Forall_app|]. right.
    destruct (scan_total last latest) as [st Hst]. rewrite Hst.
    exists latest, st. by rewrite app_assoc.
  - exists (t1 ++ t2). split; [by apply Forall_app|]. left. split; [|done].
    destruct (api env) as [| | |[l|]]; simpl in Hf; simplify_eq; try by destruct t1.
    destruct (sorted_reverse l); simplify_eq. by destruct t1.
Qed.

(** X1.  On records whose fields are [None], booleans, integers or strings,
    no exception leaves the scan or the run: the conversion of the running
    maximum on line 201, outside the [try], never raises, because that
    maximum is the stored id, already converted, or the text of an integer.
    Every run ends at one of its [return]s or at its last line. *)
Theorem X1_no_uncaught_exception :
  (forall last msgs, exists st, scan last msgs = Ok st) /\
  (forall last W msgs st,
     id_str_int last = Ok W -> scan last msgs = Ok st ->
     exists M, id_str_int (current_most_recent_id st) = Ok M) /\
  (forall env,
     (disaster_message_scheduler env).1 = Returned \/
     (disaster_message_scheduler env).1 = Completed).
Proof.
  split; [apply scan_total|]. split.
  - intros last W msgs st HW Hs.
    destruct (scan_spec last W msgs HW) as (st' & Hs' & _ & Hm).
    rewrite Hs in Hs'. injection Hs' as <-. eauto.
  - intros env. destruct (scheduler_shape env) as (t0 & _ & [[_ ->]|(l & st & _ & _ & ->)]);
      [by left | by right].
Qed.

(** ** The sort in the run *)

(** X2.  One pair of records whose sort keys cannot be compared (an [SN]
    that is a string and one that is an integer under equal [CRT_DT], a
    [CRT_DT] that is [None] beside one that is a string, ...) ends the run:
    the sort raises, the run notifies the unexpected error and returns;
    nothing is handed to Event Hubs or uploaded, whatever the other records
    are. *)
Theorem X2_incomparable_keys_end_run
    (env : environment) (l : list message) (a b : message) :
  env_missing (BlobStorageConnectionString env) = false ->
  env_missing (DisasterMsgApiKey env) = false ->
  api env = Json (Body l) ->
  a ∈ l -> b ∈ l -> ~ comparable a b ->
  disaster_message_scheduler env
    = (Returned, (load_last_processed (blob env)).2 ++ [Webhook MsgUnexpectedError]).
Proof.
  intros Hc Hk Hapi Ha Hb Hab.
  assert (Hs : exists e, sorted_reverse l = Raise e).
  { destruct (sorted_reverse l) as [r|e] eqn:Hr; [|eauto].
    destruct Hab. apply (proj1 (sorted_reverse_ok_iff l)); eauto. }
  destruct Hs as [e Hs]. unfold disaster_message_scheduler. rewrite Hc.
  destruct (load_last_processed (blob env)) as [[last bound] t1]. simpl.
  by rewrite Hk, Hapi; simpl; rewrite Hs.
Qed.

(** X3.  The sort of lines 142 to 146 succeeds exactly when every two keys
    of the list can be compared.  Its result is then a permutation of the
    list, in descending order of the keys, with records of equal keys in
    the order the API gave them; sorting it again changes nothing. *)
Theorem X3_sort_outcome (l : list message) :
  ((exists r, sorted_reverse l = Ok r) <->
   (forall a b, a ∈ l -> b ∈ l -> comparable a b)) /\
  (forall r,
     sorted_reverse l = Ok r ->
     r ≡ₚ l /\
     StronglySorted key_ge r /\
     (forall m, filter (fun y => same_key m y = true) r
                = filter (fun y => same_key m y = true) l) /\
     sorted_reverse r = Ok r).
Proof.
  split; [apply sorted_reverse_ok_iff|]. intros r Hr.
  pose proof (sorted_reverse_sorted _ _ Hr) as Hs.
  split; [by apply sorted_reverse_perm|]. split; [done|].
  split; [intros m; by apply sorted_reverse_stable|].
  apply sorted_reverse_fixed. by apply StronglySorted_Sorted.
Qed.

(** ** What the loop computes *)

Lemma batch_of_take_while W msgs :
  batch_of W msgs = filter (fun m => readable m = true) (take_while (goes_on W) msgs).
Proof.
  induction msgs as [|m rest IH]; simpl; [done|].
  unfold goes_on. destruct (msg_id m) as [cur|] eqn:Hm.
  - destruct (cur >? W); [|done].
    rewrite filter_cons_True by (unfold readable; by rewrite Hm). by rewrite IH.
  - rewrite filter_cons_False by (unfold readable; by rewrite Hm). exact IH.
Qed.

(** X4.  With a stored id that reads as [W], the loop of lines 179 to 206
    returns: as batch, the records with a readable id among those that
    stand before the first record with an id at or below [W]; as
    [current_most_recent_id], a text that reads as the largest id among [W]
    and the batch, which is never below [W]. *)
Theorem X4_scan_result (last : string) (W : Z) (msgs : list message) :
  id_str_int last = Ok W ->
  exists st,
    scan last msgs = Ok st /\
    new_messages_found st
      = filter (fun m => readable m = true) (take_while (goes_on W) msgs) /\
    id_str_int (current_most_recent_id st) = Ok (max_id W (new_messages_found st)) /\
    W <= max_id W (new_messages_found st).
Proof.
  intros HW. destruct (scan_most_recent_is_max last W msgs HW) as (st & Hs & Hm & Hle).
  exists st. split; [done|]. split; [|done].
  destruct (scan_spec last W msgs HW) as (st' & Hs' & Hb & _).
  rewrite Hs in Hs'. injection Hs' as <-. by rewrite Hb, batch_of_take_while.
Qed.

Lemma batch_of_mono W1 W2 msgs :
  W1 <= W2 -> batch_of W2 msgs `prefix_of` batch_of W1 msgs.
Proof.
  intros HW. induction msgs as [|m rest IH]; simpl; [done|].
  destruct (msg_id m) as [cur|]; [|done].
  destruct (Z.gtb_spec cur W2); [|apply prefix_nil].
  replace (cur >? W1) with true by lia. by apply prefix_cons.
Qed.

(** X5.  A larger stored id never lets more through: on the same list, the
    batch for a stored id that reads as [W2] is an initial part of the batch
    for one that reads as [W1 <= W2]. *)
Theorem X5_batch_shrinks_as_stored_id_grows
    (last1 last2 : string) (W1 W2 : Z) (msgs : list message) :
  id_str_int last1 = Ok W1 -> id_str_int last2 = Ok W2 -> W1 <= W2 ->
  exists st1 st2,
    scan last1 msgs = Ok st1 /\ scan last2 msgs = Ok st2 /\
    new_messages_found st2 `prefix_of` new_messages_found st1.
Proof.
  intros H1 H2 HW.
  destruct (scan_spec last1 W1 msgs H1) as (st1 & Hs1 & Hb1 & _).
  destruct (scan_spec last2 W2 msgs H2) as (st2 & Hs2 & Hb2 & _).
  exists st1, st2. split; [done|]. split; [done|].
  rewrite Hb1, Hb2. by apply batch_of_mono.
Qed.

(** ** Saving and loading the id *)

(** X6.  What line 256 writes for an [SN] that is an integer or a string
    the scan could read is read back by the next load (lines 105 to 107,
    then line 188) as the same integer.  For an [SN] that is [True] or
    [False], which the scan reads as 1 or 0, it writes a text that the next
    load cannot read. *)
Theorem X6_saved_id_read_back (v : value) (n : Z) :
  current_msg_id_int v = Ok n ->
  id_to_save_valid v = true ->
  match v with
  | VBool _ => id_str_int (str_strip (py_str v)) = Raise ValueError
  | _ => id_str_int (str_strip (py_str v)) = Ok n
  end.
Proof.
  intros Hv Hvalid. destruct v as [|[]|k|s]; simpl in *; try done.
  - injection Hv as ->. apply id_str_int_strip, int_of_str_of_int.
  - by apply id_str_int_strip.
Qed.

Lemma saved_content_reads v n W' :
  current_msg_id_int v = Ok n ->
  id_str_int (str_strip (py_str v)) = Ok W' -> W' = n.
Proof.
  intros Hv. destruct v as [|[]|k|s]; simpl in *.
  - vm_compute. discriminate.
  - vm_compute. discriminate.
  - vm_compute. discriminate.
  - injection Hv as ->.
    rewrite (id_str_int_strip _ _ (int_of_str_of_int n)). by intros [= <-].
  - rewrite (id_str_int_strip _ _ Hv). by intros [= <-].
Qed.

Lemma early_notice_webhook e : early_notice e = true -> is_webhook e.
Proof. by destruct e as [[]| |]. Qed.

Lemma early_notices_webhooks t :
  Forall (fun e => early_notice e = true) t -> Forall is_webhook t.
Proof. intros H. eapply Forall_impl; [exact H | apply early_notice_webhook]. Qed.

Lemma early_no_upload t c : Forall (fun e => early_notice e = true) t -> UploadBlob c ∉ t.
Proof. rewrite Forall_forall. intros H Hin. by specialize (H _ Hin). Qed.

Lemma early_no_event_set t batch :
  Forall (fun e => early_notice e = true) t -> EventSet batch ∉ t.
Proof. rewrite Forall_forall. intros H Hin. by specialize (H _ Hin). Qed.

(** The effects of the save: the upload, with the notice of its failure if
    it raises, or one notice. *)
Lemma save_last_processed_cases env bound v :
  (id_to_save_valid v = true /\ bound = true /\
   exists t2, save_last_processed env bound v = UploadBlob (py_str v) :: t2 /\
              (t2 = [] \/ t2 = [Webhook MsgBlobSaveFailed])) \/
  save_last_processed env bound v = [Webhook MsgBlobSaveFailed] \/
  save_last_processed env bound v = [Webhook MsgInvalidIdWarning].
Proof.
  unfold save_last_processed.
  destruct (id_to_save_valid v); [|by right; right].
  destruct bound; [|by right; left]. left. split; [done|]. split; [done|].
  destruct (upload_blob_raises env); eauto.
Qed.

(** Where a run uploads, it has completed, after the delivery of a batch
    whose first record gives the content. *)
Lemma scheduler_upload_shape env c :
  UploadBlob c ∈ (disaster_message_scheduler env).2 ->
  exists t0 latest st first rest t1 t2,
    Forall (fun e => early_notice e = true) t0 /\
    (fetch_latest (api env)).1 = Some latest /\
    scan (load_last_processed (blob env)).1.1 latest = Ok st /\
    new_messages_found st = first :: rest /\
    c = py_str (dict_get first "SN") /\
    id_to_save_valid (dict_get first "SN") = true /\
    (t1 = [] \/ t1 = [Webhook MsgEventHubFailed]) /\
    (t2 = [] \/ t2 = [Webhook MsgBlobSaveFailed]) /\
    disaster_message_scheduler env =
      (Completed,
       t0 ++ EventSet (first :: rest) :: t1 ++ alerts (first :: rest) ++ UploadBlob c :: t2).
Proof.
  destruct (scheduler_shape env) as (t0 & Ht0 & [[_ ->]|(latest & st & Hf & Hscan & ->)]); simpl.
  { intros H. by apply early_no_upload in H. }
  intros H. apply elem_of_app in H as [H|H]; [by apply early_no_upload in H|].
  destruct (new_messages_found st) as [|first rest] eqn:Hb; [simpl in H; not_in_list H|].
  rewrite deliver_cons in H |- *.
  apply elem_of_cons in H as [[=]|H].
  assert (Ht1 : exists t1, (if event_set_raises env then [Webhook MsgEventHubFailed] else [])
                           = t1 /\ (t1 = [] \/ t1 = [Webhook MsgEventHubFailed])).
  { destruct (event_set_raises env); eauto. }
  destruct Ht1 as (t1 & Ht1 & Ht1').
  rewrite Ht1 in H |- *.
  apply elem_of_app in H as [H|H].
  { exfalso. destruct Ht1' as [-> | ->]; not_in_list H. }
  apply elem_of_app in H as [H|H].
  { apply list_elem_of_fmap in H as (m & [=] & _). }
  destruct (save_last_processed_cases env (load_last_processed (blob env)).1.2
              (dict_get first "SN")) as [(Hv & _ & t2 & Hs & Ht2)|[Hs|Hs]];
    rewrite Hs in H |- *; [|not_in_list H|not_in_list H].
  apply elem_of_cons in H as [[= ->]|H];
    [|exfalso; destruct Ht2 as [-> | ->]; not_in_list H].
  exists t0, latest, st, first, rest, t1, t2. by repeat split.
Qed.

Lemma batch_of_head W latest first rest n :
  batch_of W latest = first :: rest -> msg_id first = Some n -> batch_of n latest = [].
Proof.
  induction latest as [|m l IH]; simpl; [done|].
  destruct (msg_id m) as [cur|] eqn:Hm; [|done].
  destruct (Z.gtb_spec cur W); [|done].
  intros [= -> _] Hn. rewrite Hm in Hn. injection Hn as ->.
  by replace (n >? n) with false by lia.
Qed.

Lemma scan_nonempty_readable last msgs st first rest :
  scan last msgs = Ok st -> new_messages_found st = first :: rest ->
  exists W n, id_str_int last = Ok W /\ batch_of W msgs = first :: rest /\
              msg_id first = Some n /\ W < n.
Proof.
  intros Hscan Hb. destruct (id_str_int_cases last) as [[W HW]|HW].
  - destruct (scan_spec last W msgs HW) as (st' & Hscan' & Hb' & _).
    rewrite Hscan in Hscan'. injection Hscan' as <-. rewrite Hb in Hb'.
    destruct (elem_of_batch_of W msgs first) as (n & Hn & Hlt).
    { rewrite <- Hb'. apply elem_of_cons. by left. }
    exists W, n. eauto.
  - unfold scan in Hscan. rewrite (scan_loop_unreadable _ _ _ HW) in Hscan.
    by injection Hscan as <-.
Qed.

(** X7.  The stored id only grows: when the loaded id reads as [W] and the
    run uploads a new content, that content, if a load can read it, reads
    as an integer above [W]. *)
Theorem X7_stored_id_grows (env : environment) (c : string) (W W' : Z) :
  id_str_int (load_last_processed (blob env)).1.1 = Ok W ->
  UploadBlob c ∈ (disaster_message_scheduler env).2 ->
  id_str_int (str_strip c) = Ok W' ->
  W < W'.
Proof.
  intros HW (t0 & latest & st & first & rest & t1 & t2 & _ & _ & Hscan & Hb & -> & _)
    %scheduler_upload_shape Hc.
  destruct (scan_nonempty_readable _ _ _ _ _ Hscan Hb) as (W0 & n & HW0 & _ & Hn & Hlt).
  rewrite HW in HW0. injection HW0 as <-.
  apply msg_id_Some in Hn. by rewrite (saved_content_reads _ _ _ Hn Hc).
Qed.

(** X8.  After a run that has uploaded an id, a second run on the same
    body, loading what the first has written, forwards nothing: it sends
    the notification that there is nothing new and touches neither Event
    Hubs nor the blob. *)
Theorem X8_second_run_forwards_nothing
    (env1 env2 : environment) (msgs : list message) (c : string) :
  api env1 = Json (Body msgs) ->
  UploadBlob c ∈ (disaster_message_scheduler env1).2 ->
  env_missing (BlobStorageConnectionString env2) = false ->
  env_missing (DisasterMsgApiKey env2) = false ->
  blob env2 = LoadContent c ->
  api env2 = Json (Body msgs) ->
  disaster_message_scheduler env2 = (Completed, [Webhook MsgNoNewMessages]).
Proof.
  intros Hapi1 (t0 & latest & st & first & rest & t1 & t2 & _ & Hf & Hscan & Hb & -> & _)
    %scheduler_upload_shape Hc2 Hk2 Hblob2 Hapi2.
  apply fetch_latest_some in Hf as [(l & Hl & Hsort & _)|[Hl _]];
    rewrite Hapi1 in Hl; [injection Hl as <- | done].
  destruct (scan_nonempty_readable _ _ _ _ _ Hscan Hb) as (W & n & _ & Hbatch & Hn & _).
  unfold disaster_message_scheduler. rewrite Hc2, Hblob2. simpl.
  rewrite Hk2, Hapi2. simpl. rewrite Hsort.
  set (last2 := str_strip (py_str (dict_get first "SN"))).
  destruct (id_str_int_cases last2) as [[W' HW']|HW'].
  - destruct (scan_spec last2 W' latest HW') as (st2 & -> & Hb2 & _).
    pose proof Hn as Hn'. apply msg_id_Some in Hn'.
    rewrite (saved_content_reads _ _ _ Hn' HW') in Hb2.
    by rewrite Hb2, (batch_of_head _ _ _ _ _ Hbatch Hn).
  - unfold scan. by rewrite (scan_loop_unreadable _ _ _ HW').
Qed.

Lemma webhooks_no_uploads t :
  Forall is_webhook t ->
  omap (fun e => match e with UploadBlob c => Some c | _ => None end) t = [].
Proof. induction 1 as [|[] t He Ht IH]; simpl; done. Qed.

(** X9.  A stored id that is not empty and cannot be read as an integer
    stays: whatever the API answers, the run hands nothing to Event Hubs,
    uploads nothing, and leaves the blob as it is, so that every later run
    finds the same. *)
Theorem X9_unreadable_stored_id_stays (env : environment) (raw : string) :
  blob env = LoadContent raw ->
  id_str_int (str_strip raw) = Raise ValueError ->
  Forall is_webhook (disaster_message_scheduler env).2 /\
  blob_after env (Some raw) = Some raw.
Proof.
  intros Hblob Hraw.
  assert (H : Forall is_webhook (disaster_message_scheduler env).2).
  { destruct (scheduler_shape env) as (t0 & Ht0 & [[_ ->]|(latest & st & _ & Hscan & ->)]);
      simpl; [by apply early_notices_webhooks|].
    apply Forall_app. split; [by apply early_notices_webhooks|].
    rewrite Hblob in Hscan. simpl in Hscan. unfold scan in Hscan.
    rewrite (scan_loop_unreadable _ _ _ Hraw) in Hscan. injection Hscan as <-.
    simpl. repeat constructor. }
  split; [done|]. unfold blob_after. by rewrite (webhooks_no_uploads _ H).
Qed.

(** ** The effects of a run, in order *)

(** X10.  The blob is written last and only after forwarding: a run that
    uploads has completed; before the upload it has called [event.set] once,
    with a batch that is not empty, and has sent the alert of every record
    of that batch; the content is the [SN] of the first record; nothing
    follows the upload but the notice of its failure. *)
Theorem X10_upload_after_forwarding (env : environment) (c : string) :
  UploadBlob c ∈ (disaster_message_scheduler env).2 ->
  exists t0 batch first t1 t2,
    Forall is_webhook t0 /\
    head batch = Some first /\
    c = py_str (dict_get first "SN") /\
    (t1 = [] \/ t1 = [Webhook MsgEventHubFailed]) /\
    (t2 = [] \/ t2 = [Webhook MsgBlobSaveFailed]) /\
    disaster_message_scheduler env =
      (Completed, t0 ++ EventSet batch :: t1 ++ alerts batch ++ UploadBlob c :: t2).
Proof.
  intros (t0 & latest & st & first & rest & t1 & t2 & Ht0 & _ & _ & _ & Hc & _ & Ht1 & Ht2 & Hrun)
    %scheduler_upload_shape.
  exists t0, (first :: rest), first, t1, t2.
  split; [by apply early_notices_webhooks|]. by repeat split.
Qed.

(** X11.  No run is silent: whatever the surroundings answer, the run calls
    [send_teams_webhook] at least once. *)
Theorem X11_every_run_notifies (env : environment) :
  exists text, Webhook text ∈ (disaster_message_scheduler env).2.
Proof.
  destruct (scheduler_shape env) as (t0 & Ht0 & [[Hne ->]|(latest & st & _ & _ & ->)]); simpl.
  - destruct t0 as [|e t0]; [done|]. apply Forall_cons in Ht0 as [He _].
    destruct e as [text| |]; [|done|done]. exists text. apply elem_of_cons. by left.
  - destruct (new_messages_found st) as [|first rest].
    + exists MsgNoNewMessages. apply elem_of_app. right. apply elem_of_cons. by left.
    + exists (teams_alert_message first). apply elem_of_app. right.
      rewrite deliver_cons. apply elem_of_cons. right. apply elem_of_app. right.
      apply elem_of_app. left. apply elem_of_cons. by left.
Qed.

(** X12.  Only fetched records are forwarded: a batch handed to Event Hubs
    is made of records of the API's body, none more often than the body has
    it, in the order of the sorted body, and each with a readable id above
    the stored one, which was readable. *)
Theorem X12_forwarded_records_are_fetched (env : environment) (batch : list message) :
  EventSet batch ∈ (disaster_message_scheduler env).2 ->
  exists l latest W,
    api env = Json (Body l) /\
    sorted_reverse l = Ok latest /\
    id_str_int (load_last_processed (blob env)).1.1 = Ok W /\
    batch `sublist_of` latest /\
    batch ⊆+ l /\
    Forall (fun m => exists n, msg_id m = Some n /\ W < n) batch.
Proof.
  destruct (scheduler_shape env) as (t0 & Ht0 & [[_ ->]|(latest & st & Hf & Hscan & ->)]); simpl.
  { intros H. by apply early_no_event_set in H. }
  intros H. apply elem_of_app in H as [H|H]; [by apply early_no_event_set in H|].
  apply deliver_event_set in H as [-> [first Hfirst]].
  destruct (new_messages_found st) as [|m rest] eqn:Hb; [done|].
  destruct (scan_nonempty_readable _ _ _ _ _ Hscan Hb) as (W & n & HW & Hbatch & _).
  apply fetch_latest_some in Hf as [(l & Hl & Hsort & _)|[_ ->]]; [|done].
  exists l, latest, W. split; [done|]. split; [done|]. split; [done|].
  assert (Hsub : m :: rest `sublist_of` latest).
  { rewrite <- Hbatch. apply batch_of_sublist. }
  split; [done|]. split.
  - rewrite <- (sorted_reverse_perm _ _ Hsort). by apply sublist_submseteq.
  - apply Forall_forall. intros x Hx. apply (elem_of_batch_of W latest).
    by rewrite Hbatch.
Qed.

Lemma filter_alerts batch :
  filter (fun e => is_alert e = true) (alerts batch) = alerts batch.
Proof. induction batch as [|m l IH]; simpl; [done|]. by rewrite filter_cons_True, IH. Qed.

Lemma filter_early t :
  Forall (fun e => early_notice e = true) t -> filter (fun e => is_alert e = true) t = [].
Proof.
  induction 1 as [|e t He Ht IH]; [done|].
  rewrite filter_cons_False; [done|]. by destruct e as [[]| |].
Qed.

Lemma filter_deliver env bound nm :
  filter (fun e => is_alert e = true) (deliver env bound nm) = alerts nm.
Proof.
  destruct nm as [|first rest]; [done|]. rewrite deliver_cons.
  rewrite filter_cons_False by done. rewrite !filter_app, filter_alerts.
  replace (filter _ (if event_set_raises env then _ else _)) with (@nil effect)
    by (by destruct (event_set_raises env)).
  replace (filter _ (save_last_processed _ _ _)) with (@nil effect); [by rewrite app_nil_r|].
  unfold save_last_processed.
  by destruct (id_to_save_valid _), bound, (upload_blob_raises env).
Qed.

(** X13.  One alert for each forwarded record, and no other: the alerts a
    run sends are those of the records of the batch it hands to Event
    Hubs, in the order of the batch; a run that hands over no batch sends
    no alert. *)
Theorem X13_one_alert_per_forwarded_record (env : environment) :
  (forall batch,
     EventSet batch ∈ (disaster_message_scheduler env).2 ->
     filter (fun e => is_alert e = true) (disaster_message_scheduler env).2 = alerts batch) /\
  ((forall batch, EventSet batch ∉ (disaster_message_scheduler env).2) ->
   filter (fun e => is_alert e = true) (disaster_message_scheduler env).2 = []).
Proof.
  destruct (scheduler_shape env) as (t0 & Ht0 & [[_ ->]|(latest & st & Hf & Hscan & ->)]); simpl.
  { split; [intros batch H; by apply early_no_event_set in H | intros _; by apply filter_early]. }
  rewrite filter_app, (filter_early _ Ht0), filter_deliver. simpl. split.
  - intros batch H. apply elem_of_app in H as [H|H]; [by apply early_no_event_set in H|].
    by apply deliver_event_set in H as [-> _].
  - intros H. destruct (new_messages_found st) as [|first rest]; [done|].
    destruct (H (first :: rest)). apply elem_of_app. right. rewrite deliver_cons.
    apply elem_of_cons. by left.
Qed.

(** ** The stages before the scan *)

(** X14.  A failed read of the stored id (with the blob client created)
    costs one notification and nothing else: the run goes on exactly as a
    run that finds no blob. *)
Theorem X14_failed_load_is_a_first_run (env : environment) :
  env_missing (BlobStorageConnectionString env) = false ->
  blob env = LoadRaises true ->
  disaster_message_scheduler env =
    ((disaster_message_scheduler (set_blob env LoadAbsent)).1,
     Webhook MsgBlobLoadFailed :: (disaster_message_scheduler (set_blob env LoadAbsent)).2).
Proof.
  intros Hc Hb. unfold disaster_message_scheduler, set_blob. simpl. rewrite Hc, Hb. simpl.
  destruct (env_missing (DisasterMsgApiKey env)); [done|].
  destruct (fetch_latest (api env)) as [[latest|] t2]; [|done].
  by destruct (scan "" latest).
Qed.

(** X15.  A credential that is missing, or set to the empty string, stops
    the run: with [BlobStorageConnectionString] or [DisasterMsgApiKey] so,
    the run returns, having only notified.  Without the connection string
    its one effect is the notice of the missing connection string, also
    when the key is missing too; with the connection string and without the
    key, its effects are the notice of a failed load, if the load fails,
    and then the notice of the missing key.  It has touched neither Event
    Hubs nor the blob, whatever the blob holds and the API would answer. *)
Theorem X15_missing_credential_stops_the_run (env : environment) :
  BlobStorageConnectionString env = None \/ BlobStorageConnectionString env = Some "" \/
  DisasterMsgApiKey env = None \/ DisasterMsgApiKey env = Some "" ->
  (disaster_message_scheduler env).1 = Returned /\
  Forall is_webhook (disaster_message_scheduler env).2 /\
  (BlobStorageConnectionString env = None \/ BlobStorageConnectionString env = Some "" ->
   (disaster_message_scheduler env).2 = [Webhook MsgNoBlobConnection]) /\
  (forall conn,
     BlobStorageConnectionString env = Some conn -> conn <> "" ->
     (disaster_message_scheduler env).2 =
       match blob env with
       | LoadRaises _ => [Webhook MsgBlobLoadFailed; Webhook MsgNoApiKey]
       | _ => [Webhook MsgNoApiKey]
       end) /\
  (forall before, blob_after env before = before).
Proof.
  intros H.
  assert (Hconn : BlobStorageConnectionString env = None \/
                  BlobStorageConnectionString env = Some "" ->
                  disaster_message_scheduler env = (Returned, [Webhook MsgNoBlobConnection])).
  { unfold disaster_message_scheduler. by intros [-> | ->]. }
  assert (Hkey : forall conn,
             BlobStorageConnectionString env = Some conn -> conn <> "" ->
             disaster_message_scheduler env =
               (Returned,
                match blob env with
                | LoadRaises _ => [Webhook MsgBlobLoadFailed; Webhook MsgNoApiKey]
                | _ => [Webhook MsgNoApiKey]
                end)).
  { intros conn Hc Hne.
    assert (Hk : env_missing (DisasterMsgApiKey env) = true).
    { destruct H as [H|[H|[H|H]]]; [congruence | congruence | by rewrite H | by rewrite H]. }
    unfold disaster_message_scheduler. rewrite Hc.
    destruct conn as [|a conn]; [done|]. simpl.
    destruct (blob env) as [bound| |raw]; simpl; by rewrite Hk. }
  assert (Hrun : exists t,
             disaster_message_scheduler env = (Returned, t) /\ Forall is_webhook t).
  { destruct (BlobStorageConnectionString env) as [conn|] eqn:Hc.
    - destruct (String.eqb_spec conn "") as [->|Hne].
      + rewrite Hconn by (by right). eexists. split; [done|]. by repeat constructor.
      + rewrite (Hkey conn eq_refl Hne). eexists. split; [done|].
        destruct (blob env); by repeat constructor.
    - rewrite Hconn by (by left). eexists. split; [done|]. by repeat constructor. }
  destruct Hrun as (t & Hrun & Ht).
  split; [by rewrite Hrun|]. split; [by rewrite Hrun|].
  split; [intros Hc; by rewrite (Hconn Hc)|].
  split; [intros conn Hc Hne; by rewrite (Hkey conn Hc Hne)|].
  intros before. unfold blob_after. rewrite Hrun. simpl.
  by rewrite (webhooks_no_uploads _ Ht).
Qed.

(** ** [send_teams_webhook] *)

(** X16.  [send_teams_webhook] never lets an exception out, whatever
    [requests.post] and [raise_for_status] do, so that a notification never
    ends a run.  It calls [requests.post] at most once: not at all when
    [AzureWebHookUrl] is missing or the empty string; otherwise once, on
    that URL with the text as payload, also when the answer is an error
    status. *)
Theorem X16_send_teams_webhook {T : Type}
    (AzureWebHookUrl : option string) (post : post_outcome) (message_text : T) :
  (send_teams_webhook AzureWebHookUrl post message_text).2 = None /\
  (AzureWebHookUrl = None \/ AzureWebHookUrl = Some "" ->
   (send_teams_webhook AzureWebHookUrl post message_text).1 = []) /\
  (forall webhook_url,
     AzureWebHookUrl = Some webhook_url -> webhook_url <> "" ->
     (send_teams_webhook AzureWebHookUrl post message_text).1
       = [(webhook_url, message_text)]).
Proof.
  unfold send_teams_webhook, webhook_try. split; [|split].
  - destruct AzureWebHookUrl as [u|]; [|done]. destruct (str_truthy u); [|done].
    destruct post as [[]|code]; simpl; [done|done|].
    unfold raise_for_status. by destruct (_ && _).
  - by intros [-> | ->].
  - intros u -> Hu. destruct u as [|a u]; [done|]. simpl.
    destruct post as [[]|code]; simpl; [done|done|].
    unfold raise_for_status. by destruct (_ && _).
Qed.

(** ** The saved id and the largest id *)

Lemma max_id_bounded M batch :
  Forall (fun m => forall k, msg_id m = Some k -> k <= M) batch -> max_id M batch = M.
Proof.
  unfold max_id. induction 1 as [|m l Hm Hl IH]; simpl; [done|].
  destruct (msg_id m) as [k|]; [|done]. by rewrite Z.max_l by (by apply Hm).
Qed.

Lemma not_older_id_le l a b :
  ids_follow_dates l -> a ∈ l -> b ∈ l -> not_older a b -> sequence_id b <= sequence_id a.
Proof.
  intros Hl Ha Hb. unfold not_older, key_ltb, key_of. simpl.
  destruct (String.eqb_spec (created_at a) (created_at b)) as [He|Hne]; [lia|].
  intros Hlt. apply (Hl b a Hb Ha).
  destruct (String.ltb (created_at b) (created_at a)) eqn:E; [done|].
  destruct Hne. by apply str_ltb_total.
Qed.

(** X17.  The id the run saves (the [SN] of the first record of the batch,
    line 215) is the largest id it has forwarded whenever the body has only
    string dates and integer ids and no record of it has both an earlier
    date and a larger id than another: the content of the upload is then
    the text of the maximum of the stored id and the ids of the batch. *)
Theorem X17_saved_id_is_largest_when_ids_follow_dates
    (env : environment) (l : list message) (c : string) :
  api env = Json (Body l) ->
  Forall int_keyed l ->
  ids_follow_dates l ->
  UploadBlob c ∈ (disaster_message_scheduler env).2 ->
  exists W batch,
    id_str_int (load_last_processed (blob env)).1.1 = Ok W /\
    EventSet batch ∈ (disaster_message_scheduler env).2 /\
    c = str_of_int (max_id W batch).
Proof.
  intros Hapi Hk Hd
    (t0 & latest & st & first & rest & t1 & t2 & _ & Hf & Hscan & Hb & -> & Hv & _ & _ & Hrun)
    %scheduler_upload_shape.
  apply fetch_latest_some in Hf as [(l' & Hl & Hsort & _)|[Hl _]];
    rewrite Hapi in Hl; [injection Hl as <- | done].
  rewrite (sorted_reverse_int_keyed _ Hk) in Hsort. injection Hsort as <-.
  destruct (scan_nonempty_readable _ _ _ _ _ Hscan Hb) as (W & n & HW & Hbatch & Hn & Hlt).
  exists W, (first :: rest). split; [done|]. split.
  { rewrite Hrun. simpl. apply elem_of_app. right. apply elem_of_cons. by left. }
  assert (Hin : forall m, m ∈ first :: rest -> m ∈ l).
  { intros m Hm. rewrite <- (sort_keys_perm l).
    apply (elem_of_sublist _ _ _ Hm). rewrite <- Hbatch. apply batch_of_sublist. }
  assert (Hsorted : StronglySorted not_older (first :: rest)).
  { apply (StronglySorted_sublist _ _ (sort_keys l)); [|apply sort_keys_sorted].
    rewrite <- Hbatch. apply batch_of_sublist. }
  apply StronglySorted_inv in Hsorted as [_ Hfirst].
  assert (Hmax : max_id W (first :: rest) = n).
  { unfold max_id. simpl. rewrite Hn. rewrite Z.max_r by lia. apply max_id_bounded.
    apply Forall_forall. intros m Hm k Hk'.
    rewrite Forall_forall in Hfirst.
    pose proof (not_older_id_le l first m Hd) as Hle.
    unfold sequence_id in Hle. rewrite Hn, Hk' in Hle. simpl in Hle.
    apply Hle; [apply Hin; apply elem_of_cons; by left
               | apply Hin; apply elem_of_cons; by right
               | by apply Hfirst]. }
  rewrite Hmax.
  assert (Hfk : int_keyed first).
  { rewrite Forall_forall in Hk. apply Hk, Hin. apply elem_of_cons. by left. }
  destruct Hfk as (c' & n' & Hkey).
  unfold msg_id in Hn. unfold sort_key, dict_get_default in Hkey. unfold dict_get in *.
  destruct (first !! "SN") as [v|]; [|done].
  injection Hkey as _ ->. simpl in Hn. by injection Hn as ->.
Qed.

(** ** A run without a blob client *)

Lemma deliver_unbound env nm c : UploadBlob c ∉ deliver env false nm.
Proof.
  destruct nm as [|first rest]; [intros H; simpl in H; not_in_list H|].
  rewrite deliver_cons. intros H.
  apply elem_of_cons in H as [[=]|H].
  apply elem_of_app in H as [H|H].
  { destruct (event_set_raises env); not_in_list H. }
  apply elem_of_app in H as [H|H].
  { apply list_elem_of_fmap in H as (m & [=] & _). }
  unfold save_last_processed in H. destruct (id_to_save_valid _); not_in_list H.
Qed.

Lemma no_uploads t :
  (forall c, UploadBlob c ∉ t) ->
  omap (fun e => match e with UploadBlob c => Some c | _ => None end) t = [].
Proof.
  induction t as [|e t IH]; [done|]. intros H.
  assert (Ht : forall c, UploadBlob c ∉ t).
  { intros c Hc. apply (H c). apply elem_of_cons. by right. }
  destruct e as [text|batch|c]; simpl; try by apply IH.
  destruct (H c). apply elem_of_cons. by left.
Qed.

(** X18.  Where the load fails before [blob_client] is assigned (lines 94
    to 98), the run uploads nothing and leaves the blob as it is; if it
    forwards a batch, its last effect is the notification of the failed
    save, or the warning of line 265. *)
Theorem X18_no_blob_client_no_upload (env : environment) (before : option string) :
  blob env = LoadRaises false ->
  (forall c, UploadBlob c ∉ (disaster_message_scheduler env).2) /\
  blob_after env before = before /\
  (forall batch,
     EventSet batch ∈ (disaster_message_scheduler env).2 ->
     last (disaster_message_scheduler env).2 = Some (Webhook MsgBlobSaveFailed) \/
     last (disaster_message_scheduler env).2 = Some (Webhook MsgInvalidIdWarning)).
Proof.
  intros Hblob.
  assert (H : forall c, UploadBlob c ∉ (disaster_message_scheduler env).2).
  { intros c.
    destruct (scheduler_shape env) as (t0 & Ht0 & [[_ ->]|(latest & st & _ & _ & ->)]);
      simpl; [by apply early_no_upload|].
    rewrite Hblob. simpl. intros [Hc|Hc]%elem_of_app;
      [by apply early_no_upload in Hc | by apply deliver_unbound in Hc]. }
  split; [done|]. split.
  { unfold blob_after. by rewrite (no_uploads _ H). }
  intros batch.
  destruct (scheduler_shape env) as (t0 & Ht0 & [[_ ->]|(latest & st & _ & _ & ->)]); simpl.
  { intros Hb. by apply early_no_event_set in Hb. }
  rewrite Hblob. simpl.
  intros [Hb|Hb]%elem_of_app; [by apply early_no_event_set in Hb|].
  apply deliver_event_set in Hb as [-> [first' Hfirst]].
  destruct (new_messages_found st) as [|first rest]; [done|].
  rewrite deliver_cons. unfold save_last_processed.
  rewrite !app_comm_cons, !app_assoc.
  destruct (id_to_save_valid _); rewrite last_snoc; [by left | by right].
Qed.

(** * The further properties at concrete runs *)

Lemma X2_witness :
  ~ comparable (msg_of "2024/05/01" (VStr "abc")) (msg_of "2024/05/01" (VInt 105)) /\
  disaster_message_scheduler env_mixed = (Returned, [Webhook MsgUnexpectedError]).
Proof.
  assert (Hn : ~ comparable (msg_of "2024/05/01" (VStr "abc"))
                            (msg_of "2024/05/01" (VInt 105))).
  { intros [c Hc]. vm_compute in Hc. discriminate Hc. }
  assert (Ha : msg_of "2024/05/01" (VStr "abc") ∈ feed_mixed) by (unfold feed_mixed; in_list).
  assert (Hb : msg_of "2024/05/01" (VInt 105) ∈ feed_mixed) by (unfold feed_mixed; in_list).
  split; [exact Hn|].
  exact (X2_incomparable_keys_end_run env_mixed feed_mixed _ _
           eq_refl eq_refl eq_refl Ha Hb Hn).
Defined.

Lemma X4_witness :
  id_str_int "100" = Ok 100 /\
  exists st,
    scan "100" sorted_feed_1 = Ok st /\
    new_messages_found st = new_1 /\
    id_str_int (current_most_recent_id st) = Ok 105.
Proof.
  assert (H : id_str_int "100" = Ok 100) by (vm_compute; reflexivity).
  destruct (X4_scan_result "100" 100 sorted_feed_1 H) as (st & Hs & Hb & Hm & _).
  split; [exact H|]. exists st. split; [exact Hs|].
  assert (Hb' : new_messages_found st = new_1).
  { rewrite Hb. vm_compute. reflexivity. }
  split; [exact Hb'|]. rewrite Hm, Hb'. vm_compute. reflexivity.
Defined.

Lemma X5_witness :
  id_str_int "100" = Ok 100 /\ id_str_int "103" = Ok 103 /\
  exists st1 st2,
    scan "100" sorted_feed_1 = Ok st1 /\ scan "103" sorted_feed_1 = Ok st2 /\
    new_messages_found st2 `prefix_of` new_messages_found st1.
Proof.
  assert (H1 : id_str_int "100" = Ok 100) by (vm_compute; reflexivity).
  assert (H2 : id_str_int "103" = Ok 103) by (vm_compute; reflexivity).
  split; [exact H1|]. split; [exact H2|].
  apply (X5_batch_shrinks_as_stored_id_grows "100" "103" 100 103 sorted_feed_1 H1 H2). lia.
Defined.

Lemma X6_witness :
  current_msg_id_int (VStr " 105 ") = Ok 105 /\
  id_to_save_valid (VStr " 105 ") = true /\
  id_str_int (str_strip (py_str (VStr " 105 "))) = Ok 105.
Proof.
  assert (H1 : current_msg_id_int (VStr " 105 ") = Ok 105) by (vm_compute; reflexivity).
  assert (H2 : id_to_save_valid (VStr " 105 ") = true) by (vm_compute; reflexivity).
  split; [exact H1|]. split; [exact H2|].
  exact (X6_saved_id_read_back (VStr " 105 ") 105 H1 H2).
Defined.

Lemma X7_witness :
  id_str_int (load_last_processed (blob env_feed_1)).1.1 = Ok 100 /\
  UploadBlob "105" ∈ (disaster_message_scheduler env_feed_1).2 /\
  id_str_int (str_strip "105") = Ok 105 /\
  100 < 105.
Proof.
  assert (H1 : id_str_int (load_last_processed (blob env_feed_1)).1.1 = Ok 100)
    by (vm_compute; reflexivity).
  assert (H2 : UploadBlob "105" ∈ (disaster_message_scheduler env_feed_1).2)
    by (vm_compute; in_list).
  assert (H3 : id_str_int (str_strip "105") = Ok 105) by (vm_compute; reflexivity).
  split; [exact H1|]. split; [exact H2|]. split; [exact H3|].
  exact (X7_stored_id_grows env_feed_1 "105" 100 105 H1 H2 H3).
Defined.

Lemma X8_witness :
  UploadBlob "105" ∈ (disaster_message_scheduler env_feed_1).2 /\
  disaster_message_scheduler env_second_run = (Completed, [Webhook MsgNoNewMessages]).
Proof.
  assert (H : UploadBlob "105" ∈ (disaster_message_scheduler env_feed_1).2)
    by (vm_compute; in_list).
  split; [exact H|].
  exact (X8_second_run_forwards_nothing env_feed_1 env_second_run feed_1 "105"
           eq_refl H eq_refl eq_refl eq_refl eq_refl).
Defined.

Lemma X9_witness :
  id_str_int (str_strip "abc") = Raise ValueError /\
  Forall is_webhook (disaster_message_scheduler env_unreadable).2 /\
  blob_after env_unreadable (Some "abc") = Some "abc".
Proof.
  assert (H : id_str_int (str_strip "abc") = Raise ValueError) by (vm_compute; reflexivity).
  split; [exact H|].
  exact (X9_unreadable_stored_id_stays env_unreadable "abc" eq_refl H).
Defined.

Lemma X10_witness :
  UploadBlob "105" ∈ (disaster_message_scheduler env_feed_1).2 /\
  exists t0 batch first t1 t2,
    Forall is_webhook t0 /\
    head batch = Some first /\
    "105" = py_str (dict_get first "SN") /\
    (t1 = [] \/ t1 = [Webhook MsgEventHubFailed]) /\
    (t2 = [] \/ t2 = [Webhook MsgBlobSaveFailed]) /\
    disaster_message_scheduler env_feed_1 =
      (Completed, t0 ++ EventSet batch :: t1 ++ alerts batch ++ UploadBlob "105" :: t2).
Proof.
  assert (H : UploadBlob "105" ∈ (disaster_message_scheduler env_feed_1).2)
    by (vm_compute; in_list).
  split; [exact H|]. exact (X10_upload_after_forwarding env_feed_1 "105" H).
Defined.

Lemma X12_witness :
  EventSet new_1 ∈ (disaster_message_scheduler env_feed_1).2 /\
  exists l latest W,
    api env_feed_1 = Json (Body l) /\
    sorted_reverse l = Ok latest /\
    id_str_int (load_last_processed (blob env_feed_1)).1.1 = Ok W /\
    new_1 `sublist_of` latest /\
    new_1 ⊆+ l /\
    Forall (fun m => exists n, msg_id m = Some n /\ W < n) new_1.
Proof.
  assert (H : EventSet new_1 ∈ (disaster_message_scheduler env_feed_1).2)
    by (vm_compute; in_list).
  split; [exact H|]. exact (X12_forwarded_records_are_fetched env_feed_1 new_1 H).
Defined.

Lemma X14_witness :
  disaster_message_scheduler env_load_fails =
    (Completed,
     Webhook MsgBlobLoadFailed
       :: (disaster_message_scheduler (env_of LoadAbsent (Json (Body feed_1)))).2).
Proof.
  exact (X14_failed_load_is_a_first_run env_load_fails eq_refl eq_refl).
Defined.

Lemma X15_witness :
  BlobStorageConnectionString env_no_connection = Some "" /\
  DisasterMsgApiKey env_no_key = None /\
  (disaster_message_scheduler env_no_connection).2 = [Webhook MsgNoBlobConnection] /\
  (disaster_message_scheduler env_no_key).1 = Returned /\
  (disaster_message_scheduler env_no_key).2
    = [Webhook MsgBlobLoadFailed; Webhook MsgNoApiKey].
Proof.
  assert (H1 : BlobStorageConnectionString env_no_connection = Some "") by reflexivity.
  assert (H2 : DisasterMsgApiKey env_no_key = None) by reflexivity.
  destruct (X15_missing_credential_stops_the_run env_no_connection
              (or_intror (or_introl H1))) as (_ & _ & Hc & _).
  destruct (X15_missing_credential_stops_the_run env_no_key
              (or_intror (or_intror (or_introl H2)))) as (Hr & _ & _ & Hk & _).
  split; [exact H1|]. split; [exact H2|].
  split; [exact (Hc (or_intror H1))|]. split; [exact Hr|].
  refine (Hk "UseDevelopmentStorage=true" eq_refl _). discriminate.
Defined.

Lemma X17_witness :
  Forall int_keyed feed_dated /\
  ids_follow_dates feed_dated /\
  UploadBlob "105" ∈ (disaster_message_scheduler env_dated).2 /\
  exists W batch,
    id_str_int (load_last_processed (blob env_dated)).1.1 = Ok W /\
    EventSet batch ∈ (disaster_message_scheduler env_dated).2 /\
    "105" = str_of_int (max_id W batch).
Proof.
  assert (H1 : Forall int_keyed feed_dated).
  { repeat constructor; eexists _, _; vm_compute; reflexivity. }
  assert (H2 : ids_follow_dates feed_dated).
  { intros a b Ha Hb. unfold feed_dated in Ha, Hb.
    repeat (apply elem_of_cons in Ha as [->|Ha]);
      try (by apply elem_of_nil in Ha);
      repeat (apply elem_of_cons in Hb as [->|Hb]);
      try (by apply elem_of_nil in Hb);
      vm_compute; intros; congruence. }
  assert (H3 : UploadBlob "105" ∈ (disaster_message_scheduler env_dated).2)
    by (vm_compute; in_list).
  split; [exact H1|]. split; [exact H2|]. split; [exact H3|].
  exact (X17_saved_id_is_largest_when_ids_follow_dates env_dated feed_dated "105"
           eq_refl H1 H2 H3).
Defined.

Lemma X18_witness :
  (forall c, UploadBlob c ∉ (disaster_message_scheduler env_no_client).2) /\
  blob_after env_no_client (Some "100") = Some "100" /\
  last (disaster_message_scheduler env_no_client).2 = Some (Webhook MsgBlobSaveFailed).
Proof.
  destruct (X18_no_blob_client_no_upload env_no_client (Some "100") eq_refl)
    as (H1 & H2 & _).
  split; [exact H1|]. split; [exact H2|]. vm_compute. reflexivity.
Defined.
